(** * The load driver of Rally: allocator, schedule generator, executor,
      sampler, load generator and coordinator.

    A shallow embedding of [esrally/driver/driver.py].  Python integers that
    count clients and iterations are natural numbers, Python floats that hold
    clock readings and durations are exact rationals ([Q]), dictionaries are
    [gmap]s and lists are lists.  Collaborators that live outside of
    [driver.py] (the scheduler, the parameter source, the runner registry,
    the metrics store, the actor system) appear through the narrow interface
    the driver uses. *)

From Stdlib Require Import QArith Lqa.
From stdpp Require Import base tactics option list sorting gmap strings.
From Equations Require Import Equations.

Set Warnings "-abstract-large-number".
Local Open Scope nat_scope.

(** ** Errors *)

(** The exceptions the modelled code can raise. *)
Inductive exn :=
| RallyAssertionError (msg : string)
| ZeroDivisionError
| IndexError
| KeyError (key : nat)
| SystemSetupError (msg : string)
| Full
| Empty.

(** ** The track model used by the driver ([esrally.track], [esrally.metrics]) *)

(** [metrics.SampleType]: an ordered enumeration, [Warmup < Normal]. *)
Inductive SampleType := Warmup | Normal.

Record Operation := {
  op_name : string;
  op_type : string
}.

(** The scheduler contract: [next(prev)] gives the next dispatch offset. *)
Record Scheduler := { next : Q → Q }.

(** [track.Task].  [sched] is the scheduler that
    [scheduler.scheduler_for(task.schedule, task.params)] resolves to. *)
Record Task := {
  operation : Operation;
  clients : nat;
  warmup_iterations : nat;
  iterations : nat;
  warmup_time_period : option Q;
  time_period : option Q;
  completes_parent : bool;
  sched : Scheduler
}.

(** ** Schedule generator *)

(** The parameter source of one client:
    [track.operation_parameters(track, op).partition(client_index, num_clients)].
    Every call of [params()] hands out the next parameter set; [drawn] counts
    the calls so far. *)
Record ParamSource := {
  ps_operation : Operation;
  ps_client_index : nat;
  ps_num_clients : nat;
  drawn : nat
}.

(** The value returned by the [k]-th call of [params()] on a partition. *)
Record Params := {
  p_operation : Operation;
  p_client_index : nat;
  p_num_clients : nat;
  p_index : nat
}.

Definition partition (op : Operation) (client_index num_clients : nat) : ParamSource :=
  {| ps_operation := op; ps_client_index := client_index;
     ps_num_clients := num_clients; drawn := 0 |}.

(** [params.params()]: returns the next parameter set and advances the source. *)
Definition params (p : ParamSource) : Params * ParamSource :=
  ({| p_operation := ps_operation p; p_client_index := ps_client_index p;
      p_num_clients := ps_num_clients p; p_index := drawn p |},
   {| ps_operation := ps_operation p; ps_client_index := ps_client_index p;
      ps_num_clients := ps_num_clients p; drawn := S (drawn p) |}).

(** [runner.runner_for(op.type)]: the registry is keyed by operation type. *)
Record Runner := { runner_for : string }.

(** The tuples a schedule yields:
    [(next_scheduled, sample_type, percent_completed, runner, params)].
    [percent_completed] is [None] for eternal tasks. *)
Record ScheduleTuple := {
  expected_scheduled_time : Q;
  sample_type : SampleType;
  percent_completed : option Q;
  runner : Runner;
  tuple_params : Params
}.

(** Python generators are lazy: calling the generator function only captures
    the arguments, the body runs when the generator is advanced.  [pc] is the
    point at which the body of [iteration_count_based] is suspended. *)
Inductive gen_pc :=
| Fresh
| Suspended (it : nat) (next_scheduled : Q)
| Finished.

Record Generator := {
  g_sched : Scheduler;
  g_warmup_iterations : nat;
  g_iterations : nat;
  g_runner : Runner;
  g_params : ParamSource;
  g_pc : gen_pc
}.

Inductive gen_result :=
| Yielded (t : ScheduleTuple)
| StopIteration
| Raised (e : exn).

Definition set_pc (g : Generator) (ps : ParamSource) (pc : gen_pc) : Generator :=
  {| g_sched := g_sched g; g_warmup_iterations := g_warmup_iterations g;
     g_iterations := g_iterations g; g_runner := g_runner g;
     g_params := ps; g_pc := pc |}.

(** [(it + 1) / total_iterations], a true division. *)
Definition progress (it total_iterations : nat) : Q :=
  (inject_Z (Z.of_nat (it + 1)) / inject_Z (Z.of_nat total_iterations))%Q.

(** One turn of [for it in range(0, total_iterations)], entered at [it]. *)
Definition loop_head (g : Generator) (it : nat) (next_scheduled : Q) : gen_result * Generator :=
  let total_iterations := g_warmup_iterations g + g_iterations g in
  if it <? total_iterations then
    let sample_type := if it <? g_warmup_iterations g then Warmup else Normal in
    let percent_completed := progress it total_iterations in
    let '(p, ps) := params (g_params g) in
    (Yielded {| expected_scheduled_time := next_scheduled;
                sample_type := sample_type;
                percent_completed := Some percent_completed;
                runner := g_runner g;
                tuple_params := p |},
     set_pc g ps (Suspended it next_scheduled))
  else (StopIteration, set_pc g (g_params g) Finished).

(** Calling [iteration_count_based(...)] returns a generator that has not
    run yet. *)
Definition iteration_count_based (sched : Scheduler) (warmup_iterations iterations : nat)
    (runner : Runner) (params : ParamSource) : Generator :=
  {| g_sched := sched; g_warmup_iterations := warmup_iterations;
     g_iterations := iterations; g_runner := runner; g_params := params;
     g_pc := Fresh |}.

(** Advancing the generator (Python's [next(gen)]): the body of
    [iteration_count_based] runs up to its next [yield]. *)
Definition gen_next (g : Generator) : gen_result * Generator :=
  match g_pc g with
  | Fresh =>
      let next_scheduled := 0%Q in
      let total_iterations := g_warmup_iterations g + g_iterations g in
      if total_iterations =? 0 then
        (Raised (RallyAssertionError "Operation must run at least for one iteration."),
         set_pc g (g_params g) Finished)
      else loop_head g 0 next_scheduled
  | Suspended it next_scheduled =>
      let next_scheduled := next (g_sched g) next_scheduled in
      loop_head g (S it) next_scheduled
  | Finished => (StopIteration, g)
  end.

(** What [schedule_for] returns: the arguments handed to [time_period_based]
    (whose body reads the clock and is not unfolded here), or the generator
    made by [iteration_count_based]. *)
Inductive Schedule :=
| TimePeriodBased (sched : Scheduler) (warmup_time_period : Q) (time_period : option Q)
    (runner : Runner) (params : ParamSource)
| IterationCountBased (g : Generator).

(** Python truthiness of an optional float: [x if x else 0]. *)
Definition or_zero (x : option Q) : Q :=
  match x with
  | Some q => if Qeq_bool q 0 then 0%Q else q
  | None => 0%Q
  end.

(** Floor division [a // b] of non-negative integers. *)
Definition floordiv (a b : nat) : exn + nat :=
  if b =? 0 then inl ZeroDivisionError else inr (a / b).

Definition schedule_for (task : Task) (client_index : nat) : exn + Schedule :=
  let op := operation task in
  let num_clients := clients task in
  let sched := sched task in
  let runner_for_op := {| runner_for := op_type op |} in
  let params_for_op := partition op client_index num_clients in
  if bool_decide (is_Some (warmup_time_period task) ∨ is_Some (time_period task)) then
    let warmup_time_period := or_zero (warmup_time_period task) in
    inr (TimePeriodBased sched warmup_time_period (time_period task) runner_for_op params_for_op)
  else
    match floordiv (warmup_iterations task) num_clients with
    | inl e => inl e
    | inr w =>
        match floordiv (iterations task) num_clients with
        | inl e => inl e
        | inr i => inr (IterationCountBased (iteration_count_based sched w i runner_for_op params_for_op))
        end
    end.

(** Running a generator to its end, as a [for] loop does: the tuples yielded
    and how the iteration ended.  [None] when [fuel] advances were not
    enough. *)
Inductive ending := Exhausted | Failed (e : exn).

Fixpoint consume (fuel : nat) (g : Generator) : option (list ScheduleTuple * ending) :=
  match fuel with
  | 0 => None
  | S fuel =>
      match gen_next g with
      | (Yielded t, g') =>
          match consume fuel g' with
          | Some (ts, e) => Some (t :: ts, e)
          | None => None
          end
      | (StopIteration, _) => Some ([], Exhausted)
      | (Raised e, _) => Some ([], Failed e)
      end
  end.

(** ** Allocator *)

(** [JoinPoint]: [num_clients_executing_completing_task] and
    [preceding_task_completes_parent] are computed from the list in
    [__init__]. *)
Record JoinPoint := {
  id : nat;
  clients_executing_completing_task : list nat
}.

Definition num_clients_executing_completing_task (j : JoinPoint) : nat :=
  length (clients_executing_completing_task j).

Definition preceding_task_completes_parent (j : JoinPoint) : bool :=
  0 <? num_clients_executing_completing_task j.

(** Modelled from the spec: the elements of a challenge's schedule are
    declared in [esrally.track], which is not among the sources.  The
    allocator reads two things of such an element: its [clients] attribute
    and the sub-tasks it iterates over.  A parallel group lists several
    sub-tasks and has a [clients] value of its own (in scenario S2 of the
    spec the group of two tasks of 1 client each runs on the workers 0 and
    1); a plain task iterates over itself. *)
Record Group := {
  group_clients : nat;
  sub_tasks : list Task
}.

Definition single (t : Task) : Group :=
  {| group_clients := clients t; sub_tasks := [t] |}.

(** An entry of the allocation matrix: a task, a join point or [None]. *)
Inductive Cell :=
| TaskCell (t : Task)
| JoinPointCell (j : JoinPoint)
| NoneCell.

Module Allocator.

(** [allocations[i].append(c)].  Every index the allocator uses is below
    [len(allocations)] (see [final_client_index_in_range]). *)
Definition append_at (i : nat) (c : Cell) (allocations : list (list Cell)) : list (list Cell) :=
  alter (λ row, row ++ [c]) i allocations.

(** [for client_index in range(lo, lo + len): allocations[client_index].append(c)]. *)
Definition append_range (lo len : nat) (c : Cell) (allocations : list (list Cell)) :=
  foldl (λ allocations client_index, append_at client_index c allocations)
        allocations (seq lo len).

(** The body of [for client_index in range(start, start + sub_task.clients)]. *)
Definition assign_client (max_clients : nat) (sub_task : Task)
    (st : list nat * list (list Cell)) (client_index : nat) : list nat * list (list Cell) :=
  let '(clients_executing_completing_task, allocations) := st in
  let final_client_index := client_index mod max_clients in
  (if completes_parent sub_task
   then clients_executing_completing_task ++ [final_client_index]
   else clients_executing_completing_task,
   append_at final_client_index (TaskCell sub_task) allocations).

(** The body of [for sub_task in task]. *)
Definition assign_sub_task (max_clients : nat)
    (st : nat * (list nat * list (list Cell))) (sub_task : Task)
    : nat * (list nat * list (list Cell)) :=
  let '(start_client_index, inner) := st in
  (start_client_index + clients sub_task,
   foldl (assign_client max_clients sub_task) inner
         (seq start_client_index (clients sub_task))).

(** [Allocator.clients]: the number of rows of the matrix. *)
Definition clients (schedule : list Group) : nat :=
  foldl (λ max_clients task, Nat.max max_clients (group_clients task)) 1 schedule.

(** The [None] entries that keep the matrix rectangular. *)
Definition fill_none (max_clients start_client_index : nat)
    (allocations : list (list Cell)) : list (list Cell) :=
  if 0 <? start_client_index mod max_clients then
    let start_client_index := start_client_index mod max_clients in
    append_range start_client_index (max_clients - start_client_index) NoneCell allocations
  else allocations.

(** The body of [for task in self.schedule]. *)
Definition allocate_group (max_clients : nat)
    (st : nat * list (list Cell)) (task : Group) : nat * list (list Cell) :=
  let '(join_point_id, allocations) := st in
  let '(start_client_index, (clients_executing_completing_task, allocations)) :=
    foldl (assign_sub_task max_clients) (0, ([], allocations)) (sub_tasks task) in
  let allocations := fill_none max_clients start_client_index allocations in
  let next_join_point :=
    {| id := join_point_id;
       clients_executing_completing_task := clients_executing_completing_task |} in
  (join_point_id + 1,
   append_range 0 max_clients (JoinPointCell next_join_point) allocations).

Definition allocations (schedule : list Group) : list (list Cell) :=
  let max_clients := clients schedule in
  let allocations := replicate max_clients [] in
  let join_point_id := 0 in
  let next_join_point := {| id := join_point_id; clients_executing_completing_task := [] |} in
  let allocations := append_range 0 max_clients (JoinPointCell next_join_point) allocations in
  let join_point_id := join_point_id + 1 in
  (foldl (allocate_group max_clients) (join_point_id, allocations) schedule).2.


End Allocator.

(** The cells of column [idx], one per client. *)
Definition column (allocations : list (list Cell)) (idx : nat) : list (option Cell) :=
  (λ row, row !! idx) <$> allocations.

(** ** Sampler *)

(** Request meta data: the [success] flag and what a failed request adds. *)
Record RequestMetaData := {
  success : bool;
  error_description : option string;
  http_status : option Z
}.

Record Sample := {
  client_id : nat;
  absolute_time : Q;
  relative_time : Q;
  task : Task;
  s_sample_type : SampleType;
  request_meta_data : RequestMetaData;
  latency_ms : Q;
  service_time_ms : Q;
  total_ops : nat;
  total_ops_unit : string;
  s_time_period : Q;
  s_percent_completed : option Q
}.

(** [queue.Queue(maxsize)], seen by one thread at a time: the items in
    insertion order.  A [maxsize] of zero means that the size is unbounded. *)
Module Queue.

Record t := { maxsize : nat; items : list Sample }.

Definition qsize (q : t) : nat := length (items q).

(** [put_nowait]: raises [Full] when no free slot is available. *)
Definition put_nowait (q : t) (item : Sample) : exn + t :=
  if (0 <? maxsize q) && (maxsize q <=? qsize q) then inl Full
  else inr {| maxsize := maxsize q; items := items q ++ [item] |}.

(** [get_nowait]: raises [Empty] when no item is available. *)
Definition get_nowait (q : t) : exn + (Sample * t) :=
  match items q with
  | [] => inl Empty
  | item :: rest => inr (item, {| maxsize := maxsize q; items := rest |})
  end.

End Queue.

Module Sampler.

Record t := {
  sampler_client_id : nat;
  sampler_task : Task;
  start_timestamp : Q;
  q : Queue.t
}.

(** [Sampler(client_id, task, start_timestamp)]. *)
Definition init (client_id : nat) (task : Task) (start_timestamp : Q) : t :=
  {| sampler_client_id := client_id; sampler_task := task;
     start_timestamp := start_timestamp;
     q := {| Queue.maxsize := 16384; Queue.items := [] |} |}.

Definition with_q (self : t) (q : Queue.t) : t :=
  {| sampler_client_id := sampler_client_id self; sampler_task := sampler_task self;
     start_timestamp := start_timestamp self; q := q |}.

(** [add].  [time_time] and [perf_counter] are the two clock readings the
    call takes.  The result says whether the call raised: [inl] would be an
    exception escaping [add]. *)
Definition add (self : t) (time_time perf_counter : Q)
    (sample_type : SampleType) (request_meta_data : RequestMetaData)
    (latency_ms service_time_ms : Q) (total_ops : nat) (total_ops_unit : string)
    (time_period : Q) (percent_completed : option Q) : exn + t :=
  match Queue.put_nowait (q self)
          {| client_id := sampler_client_id self;
             absolute_time := time_time;
             relative_time := (perf_counter - start_timestamp self)%Q;
             task := sampler_task self;
             s_sample_type := sample_type;
             request_meta_data := request_meta_data;
             latency_ms := latency_ms;
             service_time_ms := service_time_ms;
             total_ops := total_ops;
             total_ops_unit := total_ops_unit;
             s_time_period := time_period;
             s_percent_completed := percent_completed |} with
  | inr q' => inr (with_q self q')
  | inl Full => inr self (* the sample is dropped, a warning is logged *)
  | inl e => inl e
  end.

(** Keeps the equation [get_nowait q = r] at hand in each branch. *)
Definition inspect {A} (a : A) : {b | a = b} := exist _ a eq_refl.

(** [while True: samples.append(self.q.get_nowait())], left through
    [queue.Empty].  Every turn takes one item out of the queue. *)
Equations samples_loop (queue : Queue.t) (samples : list Sample) : list Sample * Queue.t
  by wf (Queue.qsize queue) lt :=
  samples_loop queue samples with inspect (Queue.get_nowait queue) := {
    | exist _ (inr (pair item queue')) Hget => samples_loop queue' (samples ++ [item])
    | exist _ (inl _) Hget => (samples, queue)
  }.
Next Obligation.
  unfold Queue.get_nowait, Queue.qsize in *.
  destruct (Queue.items queue); simplify_eq/=. lia.
Qed.

(** The [samples] property: drains the queue. *)
Definition samples (self : t) : list Sample * t :=
  let '(samples, q') := samples_loop (q self) [] in
  (samples, with_q self q').

End Sampler.

(** ** Executor *)

(** Modelled from the spec: [convert.seconds_to_ms] is defined in
    [esrally.utils], which is not among the sources.  Samples carry
    [latency_ms] and [service_time_ms]: seconds times one thousand. *)
Definition seconds_to_ms (s : Q) : Q := (s * 1000)%Q.

(** What one invocation of a runner does, as far as [execute_single] tells
    the cases apart. *)
Inductive RunnerOutcome :=
| ReturnsPair (total_ops : nat) (total_ops_unit : string)
| ReturnsDict (weight : option nat) (unit : option string) (success : option bool)
| ReturnsOther
| RaisesTransportError (error : string) (status_code : option Z)
| RaisesKeyError (key : string).

Definition execute_single (outcome : RunnerOutcome) : exn + (nat * string * RequestMetaData) :=
  let ok := {| success := true; error_description := None; http_status := None |} in
  match outcome with
  | ReturnsPair total_ops total_ops_unit => inr (total_ops, total_ops_unit, ok)
  | ReturnsDict weight unit success =>
      inr (default 1 weight, default "ops"%string unit,
           {| success := default true success; error_description := None;
              http_status := None |})
  | ReturnsOther => inr (1, "ops"%string, ok)
  | RaisesTransportError error status_code =>
      inr (0, "ops"%string,
           {| success := false; error_description := Some error;
              http_status := status_code |})
  | RaisesKeyError key =>
      inl (SystemSetupError "Cannot execute runner; most likely due to missing parameters.")
  end.

(** What is outside of the executor's control during one turn of its loop:
    the time that passes between two readings of the monotonic clock, the
    behaviour of the runner, and the flags the actor thread may set
    meanwhile. *)
Record Turn := {
  pulled : gen_result;       (* what a time-period schedule yields *)
  cancel_set : bool;         (* the actor thread has set [cancel] *)
  until_check : Q;           (* time until [perf_counter()] in [rest] *)
  overslept : Q;             (* time [sleep(rest)] takes beyond [rest] *)
  until_start : Q;           (* time until [start = perf_counter()] *)
  outcome : RunnerOutcome;
  service : Q;               (* time from [start] to [stop] *)
  complete_set : bool;       (* the actor thread has set [complete] *)
  time_time : Q;             (* [time.time()] in [Sampler.add] *)
  until_add : Q;             (* time until [perf_counter()] in [Sampler.add] *)
  complete_set_late : bool   (* [complete] was set after the sample was added *)
}.

(** Time does not run backwards. *)
Definition elapses (turn : Turn) : Prop :=
  (0 <= until_check turn ∧ 0 <= overslept turn ∧ 0 <= until_start turn ∧
   0 <= service turn ∧ 0 <= until_add turn)%Q.

Module Executor.

Record t := {
  task : Task;
  schedule : Schedule;
  sampler : Sampler.t;
  cancel : bool;
  complete : bool;
  clock : Q                (* the latest reading of [time.perf_counter()] *)
}.

Inductive exit := Continue | Break | Stop | Raise (e : exn).

(** Advancing [self.schedule] in the [for] statement. *)
Definition advance (schedule : Schedule) (turn : Turn) : gen_result * Schedule :=
  match schedule with
  | IterationCountBased g =>
      let '(r, g') := gen_next g in (r, IterationCountBased g')
  | TimePeriodBased _ _ _ _ _ => (pulled turn, schedule)
  end.

(** The body of the [for] loop for one schedule tuple. *)
Definition body (total_start : Q) (self : t) (schedule' : Schedule)
    (tuple : ScheduleTuple) (turn : Turn) : t * exit :=
  let expected_scheduled_time := expected_scheduled_time tuple in
  let cancel := cancel self || cancel_set turn in
  if cancel then
    ({| task := task self; schedule := schedule'; sampler := sampler self;
        cancel := cancel; complete := complete self; clock := clock self |}, Break)
  else
    let absolute_expected_schedule_time := (total_start + expected_scheduled_time)%Q in
    let throughput_throttled := Qlt_le_dec 0 expected_scheduled_time in
    let clock :=
      if throughput_throttled then
        let now := (clock self + until_check turn)%Q in
        let rest := (absolute_expected_schedule_time - now)%Q in
        if Qlt_le_dec 0 rest then (now + rest + overslept turn)%Q else now
      else clock self in
    let start := (clock + until_start turn)%Q in
    match execute_single (outcome turn) with
    | inl e =>
        ({| task := task self; schedule := schedule'; sampler := sampler self;
            cancel := cancel; complete := complete self; clock := start |}, Raise e)
    | inr (total_ops, total_ops_unit, request_meta_data) =>
        let stop := (start + service turn)%Q in
        let service_time := (stop - start)%Q in
        let latency :=
          if throughput_throttled
          then (stop - absolute_expected_schedule_time)%Q
          else service_time in
        let complete := complete self || complete_set turn in
        let completed := if negb complete then percent_completed tuple else Some 1%Q in
        let clock := (stop + until_add turn)%Q in
        match Sampler.add (sampler self) (time_time turn) clock
                (sample_type tuple) request_meta_data
                (seconds_to_ms latency) (seconds_to_ms service_time)
                total_ops total_ops_unit (stop - total_start)%Q completed with
        | inl e =>
            ({| task := task self; schedule := schedule'; sampler := sampler self;
                cancel := cancel; complete := complete; clock := clock |}, Raise e)
        | inr sampler' =>
            let complete := complete || complete_set_late turn in
            ({| task := task self; schedule := schedule'; sampler := sampler';
                cancel := cancel; complete := complete; clock := clock |},
             if complete then Break else Continue)
        end
    end.

(** One turn of [for ... in self.schedule]. *)
Definition turn (total_start : Q) (self : t) (turn : Turn) : t * exit :=
  match advance (schedule self) turn with
  | (Yielded tuple, schedule') => body total_start self schedule' tuple turn
  | (StopIteration, schedule') =>
      ({| task := task self; schedule := schedule'; sampler := sampler self;
          cancel := cancel self; complete := complete self; clock := clock self |}, Stop)
  | (Raised e, schedule') =>
      ({| task := task self; schedule := schedule'; sampler := sampler self;
          cancel := cancel self; complete := complete self; clock := clock self |}, Raise e)
  end.

(** The loop, for as many turns as the environment is described for; the
    exit is [Continue] when the loop is still running after them. *)
Fixpoint loop (total_start : Q) (self : t) (turns : list Turn) : t * exit :=
  match turns with
  | [] => (self, Continue)
  | t :: turns =>
      match turn total_start self t with
      | (self', Continue) => loop total_start self' turns
      | r => r
      end
  end.



End Executor.

(** ** Messages *)

(** The part of the configuration the driver consults. *)
Record Config := {
  test_mode_enabled : bool;   (* ("track", "test.mode.enabled") *)
  profiling : bool            (* ("driver", "profiling") *)
}.

(** Messages a load generator receives. *)
Inductive WorkerMessage :=
| StartLoadGenerator (client_id : nat) (config : Config) (tasks : list Cell)
| Drive (client_start_timestamp : Q)
| CompleteCurrentTask
| WakeupMessage
| ActorExitRequest
| UnknownMessage.

(** Messages a load generator sends to its master. *)
Inductive MasterMessage :=
| JoinPointReached (client_id : nat) (client_local_timestamp : Q) (task : JoinPoint)
| UpdateSamples (client_id : nat) (samples : list Sample)
| BenchmarkCancelled
| BenchmarkFailure (message : string) (cause : exn).

(** ** Load generator *)

Module LoadGenerator.

(** The [concurrent.futures.Future] of the submitted executor. *)
Inductive Future :=
| Running
| Done (exception : option exn).

(** [cancel], [complete] and [sampler] are shared with the executor
    thread. *)
Record t := {
  client_id : nat;
  config : Config;
  tasks : list Cell;
  current_task_index : nat;
  current_task : option Cell;
  cancel : bool;
  complete : bool;
  executor_future : option Future;
  sampler : option Sampler.t;
  start_driving : bool;
  wakeup_interval : Q
}.

(** What the actor does towards the outside while it handles a message. *)
Inductive Action :=
| Send (msg : MasterMessage)
| WakeupAfter (seconds : Q)
| Submit (executor : Executor.t) (profiled : bool)
| PoolShutdown.

(** What the handler of one message reads from its environment.
    [executor_future.result()] blocks while the executor is running;
    [awaited] is the exception it then raises, if any.  (The handlers call
    [drive] with a future that is [None]; what the executor thread does to
    the shared sampler and flags is the transition [executor_done] below.) *)
Record Env := {
  perf_counter : Q;           (* the reading of [time.perf_counter()] *)
  awaited : option exn        (* how a still running executor ends *)
}.

Definition WAKEUP_INTERVAL_SECONDS : Q := 5%Q.

(** The state [__init__] sets up. *)
Definition init : t :=
  {| client_id := 0; config := {| test_mode_enabled := false; profiling := false |};
     tasks := []; current_task_index := 0; current_task := None;
     cancel := false; complete := false; executor_future := None;
     sampler := None; start_driving := false;
     wakeup_interval := WAKEUP_INTERVAL_SECONDS |}.

Definition at_joinpoint (self : t) : bool :=
  match current_task self with
  | Some (JoinPointCell _) => true
  | _ => false
  end.

Definition set_index (self : t) (index : nat) : t :=
  {| client_id := client_id self; config := config self; tasks := tasks self;
     current_task_index := index; current_task := current_task self;
     cancel := cancel self; complete := complete self;
     executor_future := executor_future self; sampler := sampler self;
     start_driving := start_driving self; wakeup_interval := wakeup_interval self |}.

Definition current_task_and_advance (self : t) : exn + (Cell * t) :=
  match tasks self !! current_task_index self with
  | Some current => inr (current, set_index self (S (current_task_index self)))
  | None => inl IndexError
  end.

(** [task = self.current_task_and_advance()] followed by
    [while task is None: task = self.current_task_and_advance()].  [rest]
    holds the entries from [index] on.  The result is the first entry that
    is not [None] with the index behind it, or the index at which
    [self.tasks[...]] raised [IndexError]. *)
Fixpoint skip_none (rest : list Cell) (index : nat) : option Cell * nat :=
  match rest with
  | [] => (None, index)
  | NoneCell :: rest => skip_none rest (S index)
  | task :: _ => (Some task, S index)
  end.

(** [send_samples]: drains the sampler. *)
Definition send_samples (self : t) : t * list Action * option (list Sample) :=
  match sampler self with
  | Some sampler =>
      let '(samples, sampler') := Sampler.samples sampler in
      ({| client_id := client_id self; config := config self; tasks := tasks self;
          current_task_index := current_task_index self;
          current_task := current_task self;
          cancel := cancel self; complete := complete self;
          executor_future := executor_future self; sampler := Some sampler';
          start_driving := start_driving self;
          wakeup_interval := wakeup_interval self |},
       if 0 <? length samples then [Send (UpdateSamples (client_id self) samples)] else [],
       Some samples)
  | None => (self, [], None)
  end.

(** [drive].  The third component is the exception that leaves the
    method, if any. *)
Definition drive (self : t) (env : Env) : t * list Action * option exn :=
  let profiling_enabled := profiling (config self) in
  match skip_none (drop (current_task_index self) (tasks self)) (current_task_index self) with
  | (None, index) => (set_index self index, [], Some IndexError)
  | (Some task, index) =>
      let self :=
        {| client_id := client_id self; config := config self; tasks := tasks self;
           current_task_index := index; current_task := Some task;
           cancel := cancel self; complete := complete self;
           executor_future := executor_future self; sampler := sampler self;
           start_driving := start_driving self;
           wakeup_interval := wakeup_interval self |} in
      match task with
      | JoinPointCell join_point =>
          let result :=
            match executor_future self with
            | Some Running => awaited env
            | Some (Done e) => e
            | None => None
            end in
          match result with
          | Some e => (self, [], Some e)
          | None =>
              let '(self, sent, _) := send_samples self in
              ({| client_id := client_id self; config := config self;
                  tasks := tasks self;
                  current_task_index := current_task_index self;
                  current_task := current_task self;
                  cancel := false; complete := false;
                  executor_future := None; sampler := None;
                  start_driving := start_driving self;
                  wakeup_interval := wakeup_interval self |},
               sent ++ [Send (JoinPointReached (client_id self) (perf_counter env) join_point)],
               None)
          end
      | TaskCell task =>
          if complete self then (self, [], None)
          else
            let sampler := Sampler.init (client_id self) task (perf_counter env) in
            let self :=
              {| client_id := client_id self; config := config self;
                 tasks := tasks self;
                 current_task_index := current_task_index self;
                 current_task := current_task self;
                 cancel := cancel self; complete := complete self;
                 executor_future := executor_future self; sampler := Some sampler;
                 start_driving := start_driving self;
                 wakeup_interval := wakeup_interval self |} in
            match schedule_for task (client_id self) with
            | inl e => (self, [], Some e)
            | inr schedule =>
                let executor :=
                  {| Executor.task := task; Executor.schedule := schedule;
                     Executor.sampler := sampler; Executor.cancel := cancel self;
                     Executor.complete := complete self;
                     Executor.clock := perf_counter env |} in
                ({| client_id := client_id self; config := config self;
                    tasks := tasks self;
                    current_task_index := current_task_index self;
                    current_task := current_task self;
                    cancel := cancel self; complete := complete self;
                    executor_future := Some Running; sampler := Some sampler;
                    start_driving := start_driving self;
                    wakeup_interval := wakeup_interval self |},
                 [Submit executor profiling_enabled; WakeupAfter (wakeup_interval self)],
                 None)
            end
      | NoneCell => (self, [], Some (RallyAssertionError "Unknown task type"))
      end
  end.

(** The executor thread has run the submitted executor to its end:
    sampler and flags are the objects it shared with the actor. *)
Definition executor_done (self : t) (executor : Executor.t) (e : option exn) : t :=
  {| client_id := client_id self; config := config self; tasks := tasks self;
     current_task_index := current_task_index self;
     current_task := current_task self;
     cancel := cancel self || Executor.cancel executor;
     complete := complete self || Executor.complete executor;
     executor_future := Some (Done e);
     sampler := Some (Executor.sampler executor);
     start_driving := start_driving self;
     wakeup_interval := wakeup_interval self |}.

(** The body of the [try] block of [receiveMessage]. *)
Definition handle (self : t) (msg : WorkerMessage) (env : Env)
    : t * list Action * option exn :=
  match msg with
  | StartLoadGenerator client_id config tasks =>
      let self :=
        {| client_id := client_id; config := config; tasks := tasks;
           current_task_index := 0; current_task := None;
           cancel := false; complete := complete self;
           executor_future := executor_future self; sampler := sampler self;
           start_driving := start_driving self;
           wakeup_interval :=
             if test_mode_enabled config then 0.5%Q else wakeup_interval self |} in
      drive self env
  | Drive client_start_timestamp =>
      let sleep_time := (client_start_timestamp - perf_counter env)%Q in
      ({| client_id := client_id self; config := config self; tasks := tasks self;
          current_task_index := current_task_index self;
          current_task := current_task self;
          cancel := cancel self; complete := complete self;
          executor_future := executor_future self; sampler := sampler self;
          start_driving := true;
          wakeup_interval := wakeup_interval self |},
       [WakeupAfter sleep_time], None)
  | CompleteCurrentTask =>
      if at_joinpoint self then (self, [], None)
      else
        ({| client_id := client_id self; config := config self; tasks := tasks self;
            current_task_index := current_task_index self;
            current_task := current_task self;
            cancel := cancel self; complete := true;
            executor_future := executor_future self; sampler := sampler self;
            start_driving := start_driving self;
            wakeup_interval := wakeup_interval self |}, [], None)
  | WakeupMessage =>
      if start_driving self then
        drive
          {| client_id := client_id self; config := config self; tasks := tasks self;
             current_task_index := current_task_index self;
             current_task := current_task self;
             cancel := cancel self; complete := complete self;
             executor_future := executor_future self; sampler := sampler self;
             start_driving := false;
             wakeup_interval := wakeup_interval self |} env
      else
        let '(self, sent, current_samples) := send_samples self in
        if cancel self then (self, sent ++ [Send BenchmarkCancelled], None)
        else
          match executor_future self with
          | Some (Done (Some e)) =>
              (self,
               sent ++ [Send (BenchmarkFailure "Error in load generator" e)], None)
          | Some (Done None) =>
              let '(self, driven, e) :=
                drive
                  {| client_id := client_id self; config := config self;
                     tasks := tasks self;
                     current_task_index := current_task_index self;
                     current_task := current_task self;
                     cancel := cancel self; complete := complete self;
                     executor_future := None; sampler := sampler self;
                     start_driving := start_driving self;
                     wakeup_interval := wakeup_interval self |} env in
              (self, sent ++ driven, e)
          | _ => (self, sent ++ [WakeupAfter (wakeup_interval self)], None)
          end
  | ActorExitRequest =>
      match executor_future self with
      | Some Running =>
          ({| client_id := client_id self; config := config self; tasks := tasks self;
              current_task_index := current_task_index self;
              current_task := current_task self;
              cancel := true; complete := complete self;
              executor_future := executor_future self; sampler := sampler self;
              start_driving := start_driving self;
              wakeup_interval := wakeup_interval self |}, [PoolShutdown], None)
      | _ => (self, [], None)
      end
  | UnknownMessage => (self, [], None)
  end.

(** [receiveMessage]: an exception that leaves the [try] block is reported
    to the master. *)
Definition receiveMessage (self : t) (msg : WorkerMessage) (env : Env) : t * list Action :=
  match handle self msg env with
  | (self, actions, None) => (self, actions)
  | (self, actions, Some e) =>
      (self, actions ++ [Send (BenchmarkFailure "Fatal error in load generator" e)])
  end.

End LoadGenerator.

(** ** Coordinator *)

Module Driver.

(** The address of a load generator actor. *)
Definition Address := nat.

(** The calls [Driver] makes on its [target]. *)
Inductive Action :=
| on_benchmark_complete (m : list Sample)
| on_task_finished (m : list Sample) (next_task_scheduled_in : Q)
| drive_at (driver : Address) (client_start_timestamp : Q)
| complete_current_task (driver : Address).

(** The metrics batch [m] is represented by the samples of the step that
    were post-processed into it. *)
Record t := {
  config : Config;
  drivers : list Address;
  raw_samples : list Sample;
  most_recent_sample_per_client : gmap nat Sample;
  number_of_steps : Z;
  currently_completed : nat;
  clients_completed_current_step : gmap nat (Q * Q);
  current_step : Z;
  complete_current_task_sent : bool;
  metrics_store_open : bool
}.

Definition finished (self : t) : bool :=
  bool_decide (current_step self = number_of_steps self).

(** [for client_id, driver in enumerate(self.drivers)]: the [drive_at]
    calls, up to a client without an entry in [clients_curr_step]. *)
Fixpoint schedule_next (clients_curr_step : gmap nat (Q * Q)) (start_next_task : Q)
    (client_id : nat) (drivers : list Address) : list Action * option exn :=
  match drivers with
  | [] => ([], None)
  | driver :: drivers =>
      match clients_curr_step !! client_id with
      | None => ([], Some (KeyError client_id))
      | Some (client_ended_task_at, master_received_msg_at) =>
          let client_start_timestamp :=
            (client_ended_task_at + (start_next_task - master_received_msg_at))%Q in
          let '(actions, e) :=
            schedule_next clients_curr_step start_next_task (S client_id) drivers in
          (drive_at driver client_start_timestamp :: actions, e)
      end
  end.

(** [joinpoint_reached].  [received_at] and [scheduled_at] are the two
    readings of [time.perf_counter()] the method takes. *)
Definition joinpoint_reached (self : t) (client_id : nat) (client_local_timestamp : Q)
    (task : JoinPoint) (received_at scheduled_at : Q) : t * list Action * option exn :=
  let currently_completed := currently_completed self + 1 in
  let clients_completed_current_step :=
    <[client_id := (client_local_timestamp, received_at)]>
      (clients_completed_current_step self) in
  if currently_completed =? length (drivers self) then
    let clients_curr_step := clients_completed_current_step in
    let current_step := (current_step self + 1)%Z in
    let m := raw_samples self in
    let self :=
      {| config := config self; drivers := drivers self;
         raw_samples := []; most_recent_sample_per_client := ∅;
         number_of_steps := number_of_steps self;
         currently_completed := 0;
         clients_completed_current_step := ∅;
         current_step := current_step;
         complete_current_task_sent := false;
         metrics_store_open := metrics_store_open self |} in
    if finished self then
      ({| config := config self; drivers := drivers self;
          raw_samples := raw_samples self;
          most_recent_sample_per_client := most_recent_sample_per_client self;
          number_of_steps := number_of_steps self;
          currently_completed := Driver.currently_completed self;
          clients_completed_current_step := Driver.clients_completed_current_step self;
          current_step := Driver.current_step self;
          complete_current_task_sent := complete_current_task_sent self;
          metrics_store_open := false |},
       [on_benchmark_complete m], None)
    else
      let waiting_period :=
        if test_mode_enabled (config self) then 0%Q else 5.0%Q in
      let start_next_task := (scheduled_at + waiting_period)%Q in
      let '(driven, e) := schedule_next clients_curr_step start_next_task 0 (drivers self) in
      (self, on_task_finished m waiting_period :: driven, e)
  else
    let current_join_point := task in
    let self :=
      {| config := config self; drivers := drivers self;
         raw_samples := raw_samples self;
         most_recent_sample_per_client := most_recent_sample_per_client self;
         number_of_steps := number_of_steps self;
         currently_completed := currently_completed;
         clients_completed_current_step := clients_completed_current_step;
         current_step := current_step self;
         complete_current_task_sent := complete_current_task_sent self;
         metrics_store_open := metrics_store_open self |} in
    if preceding_task_completes_parent current_join_point
       && negb (complete_current_task_sent self) then
      let all_clients_finished :=
        foldl (λ all_clients_finished client_id,
                 if bool_decide (client_id ∈ dom (Driver.clients_completed_current_step self))
                 then all_clients_finished else false)
              true (clients_executing_completing_task current_join_point) in
      if all_clients_finished then
        ({| config := config self; drivers := drivers self;
            raw_samples := raw_samples self;
            most_recent_sample_per_client := most_recent_sample_per_client self;
            number_of_steps := number_of_steps self;
            currently_completed := Driver.currently_completed self;
            clients_completed_current_step := Driver.clients_completed_current_step self;
            current_step := current_step self;
            complete_current_task_sent := true;
            metrics_store_open := metrics_store_open self |},
         complete_current_task <$> drivers self, None)
      else (self, [], None)
    else (self, [], None).


(** A barrier report as it reaches the coordinator. *)
Record Report := {
  r_client_id : nat;
  r_client_local_timestamp : Q;
  r_task : JoinPoint;
  r_received_at : Q;
  r_scheduled_at : Q
}.

Definition report (self : t) (r : Report) : t * list Action * option exn :=
  joinpoint_reached self (r_client_id r) (r_client_local_timestamp r) (r_task r)
    (r_received_at r) (r_scheduled_at r).

(** The coordinator handles reports one after the other; the result lists
    what each report made it do. *)
Fixpoint reports (self : t) (rs : list Report) : t * list (list Action) :=
  match rs with
  | [] => (self, [])
  | r :: rs =>
      let '(self, actions, _) := report self r in
      let '(self, rest) := reports self rs in
      (self, actions :: rest)
  end.

End Driver.

(** Whether handling a report made the coordinator send [CompleteCurrentTask]. *)
Definition sends_complete (actions : list Driver.Action) : bool :=
  existsb (λ a, match a with Driver.complete_current_task _ => true | _ => false end) actions.

(** ** Closed forms used in the statements *)

(** The generator of [iteration_count_based sc w i r ps] after [n] calls of
    [params()], suspended at [pc]. *)
Definition gen_at (sc : Scheduler) (w i : nat) (r : Runner) (ps : ParamSource)
    (n : nat) (pc : gen_pc) : Generator :=
  {| g_sched := sc; g_warmup_iterations := w; g_iterations := i; g_runner := r;
     g_params := {| ps_operation := ps_operation ps;
                    ps_client_index := ps_client_index ps;
                    ps_num_clients := ps_num_clients ps;
                    drawn := drawn ps + n |};
     g_pc := pc |}.

(** The tuple that generator yields in turn [it]. *)
Definition tuple_at (sc : Scheduler) (w i : nat) (r : Runner) (ps : ParamSource)
    (it : nat) : ScheduleTuple :=
  {| expected_scheduled_time := Nat.iter it (next sc) 0%Q;
     sample_type := if it <? w then Warmup else Normal;
     percent_completed := Some (progress it (w + i));
     runner := r;
     tuple_params := {| p_operation := ps_operation ps;
                        p_client_index := ps_client_index ps;
                        p_num_clients := ps_num_clients ps;
                        p_index := drawn ps + it |} |}.

(** A task that is bound by iteration counts: no time period is given. *)
Definition iteration_count_task (task : Task) : Prop :=
  warmup_time_period task = None ∧ time_period task = None.

(** Tasks for the examples: an unthrottled scheduler, no time periods. *)
Definition example_task (name : string) (clients warmup_iterations iterations : nat)
    (completes_parent : bool) : Task :=
  {| operation := {| op_name := name; op_type := "index" |};
     clients := clients;
     warmup_iterations := warmup_iterations;
     iterations := iterations;
     warmup_time_period := None;
     time_period := None;
     completes_parent := completes_parent;
     sched := {| next := λ _, 0%Q |} |}.

(** A cell a group may put into a row: one of its sub-tasks or [None]. *)
Definition cell_of_group (g : Group) (c : Cell) : Prop :=
  c = NoneCell ∨ ∃ t, t ∈ sub_tasks g ∧ c = TaskCell t.

(** How many of the consecutive client indices [0 .. c - 1] fall on row [r]
    when they are taken modulo [max_clients]. *)
Definition share (max_clients r c : nat) : nat :=
  c / max_clients + (if r <? c mod max_clients then 1 else 0).

(** The matrix [m] is [m0] with, in every row, the task cells of group [g]
    for the client indices below [c]. *)
Definition extends (max_clients : nat) (g : Group) (m0 m : list (list Cell)) (c : nat) : Prop :=
  length m = length m0 ∧
  ∀ r row0, m0 !! r = Some row0 →
    ∃ blk, m !! r = Some (row0 ++ blk) ∧
           length blk = share max_clients r c ∧
           Forall (cell_of_group g) blk.

(** What a column of the matrix holds: one join point, or cells of one
    group. *)
Inductive column_kind :=
| JoinPointColumn (j : JoinPoint)
| GroupColumn (g : Group).

Definition fits (c : Cell) (k : column_kind) : Prop :=
  match k with
  | JoinPointColumn j => c = JoinPointCell j
  | GroupColumn g => cell_of_group g c
  end.

(** Every row of [m] follows the column kinds [cols]. *)
Definition shaped (cols : list column_kind) (m : list (list Cell)) : Prop :=
  ∀ r row, m !! r = Some row → Forall2 fits row cols.

(** A column kind that stems from the schedule [all]. *)
Definition kind_of (all : list Group) (k : column_kind) : Prop :=
  match k with
  | JoinPointColumn _ => True
  | GroupColumn g => g ∈ all
  end.

(** A parallel group of the tasks [a] (1 client, completes its parent) and
    [b] (2 clients), which takes 3 clients. *)
Definition example_parallel : Group :=
  {| group_clients := 3;
     sub_tasks := [example_task "a" 1 0 1 true; example_task "b" 2 0 2 false] |}.

(** The samples queued in the sampler of an executor. *)
Definition queued (self : Executor.t) : list Sample :=
  Queue.items (Sampler.q (Executor.sampler self)).

(** What the executor's loop guarantees for a sample of a tuple with the
    expected dispatch offset [offset]. *)
Definition timed (offset : Q) (sample : Sample) : Prop :=
  (0 <= service_time_ms sample)%Q ∧
  ((0 < offset)%Q → (service_time_ms sample <= latency_ms sample)%Q) ∧
  ((offset <= 0)%Q → latency_ms sample = service_time_ms sample).

(** A turn in which a tenth of a second passes between any two readings of
    the clock and the runner reports 5 documents. *)
Definition example_turn : Turn :=
  {| pulled := StopIteration; cancel_set := false;
     until_check := 0.1%Q; overslept := 0.1%Q; until_start := 0.1%Q;
     outcome := ReturnsPair 5 "docs"; service := 0.1%Q;
     complete_set := false; time_time := 100%Q; until_add := 0.1%Q;
     complete_set_late := false |}.

(** An executor for a task of 2 iterations, about to start. *)
Definition example_executor : Executor.t :=
  let task := example_task "search" 1 0 2 false in
  {| Executor.task := task;
     Executor.schedule :=
       IterationCountBased
         (iteration_count_based (sched task) 0 2 {| runner_for := "index" |}
            (partition (operation task) 0 1));
     Executor.sampler := Sampler.init 0 task 0%Q;
     Executor.cancel := false; Executor.complete := false;
     Executor.clock := 0%Q |}.

(** A coordinator of two load generators in the middle of the first of two
    steps: client 0 has reported the join point, client 1 has not. *)
Definition example_driver : Driver.t :=
  {| Driver.config := {| test_mode_enabled := false; profiling := false |};
     Driver.drivers := [10; 11];
     Driver.raw_samples := [];
     Driver.most_recent_sample_per_client := ∅;
     Driver.number_of_steps := 2;
     Driver.currently_completed := 1;
     Driver.clients_completed_current_step := {[0 := (3%Q, 10%Q)]};
     Driver.current_step := 0;
     Driver.complete_current_task_sent := false;
     Driver.metrics_store_open := true |}.

(** The same coordinator at the start of the step. *)
Definition example_driver_start : Driver.t :=
  {| Driver.config := {| test_mode_enabled := false; profiling := false |};
     Driver.drivers := [10; 11];
     Driver.raw_samples := [];
     Driver.most_recent_sample_per_client := ∅;
     Driver.number_of_steps := 2;
     Driver.currently_completed := 0;
     Driver.clients_completed_current_step := ∅;
     Driver.current_step := 0;
     Driver.complete_current_task_sent := false;
     Driver.metrics_store_open := true |}.

(** The join point after a group whose completing task runs on client 0. *)
Definition example_join_point : JoinPoint :=
  {| id := 1; clients_executing_completing_task := [0] |}.

Definition example_report (client_id : nat) : Driver.Report :=
  {| Driver.r_client_id := client_id;
     Driver.r_client_local_timestamp := 3%Q;
     Driver.r_task := example_join_point;
     Driver.r_received_at := 10%Q;
     Driver.r_scheduled_at := 11%Q |}.

(** A load generator handles messages one after the other; the result lists
    what each message made it do. *)
Fixpoint receive_all (self : LoadGenerator.t)
    (msgs : list (WorkerMessage * LoadGenerator.Env)) : LoadGenerator.t * list (list LoadGenerator.Action) :=
  match msgs with
  | [] => (self, [])
  | (msg, env) :: msgs =>
      let '(self, actions) := LoadGenerator.receiveMessage self msg env in
      let '(self, rest) := receive_all self msgs in
      (self, actions :: rest)
  end.

(** Client 0 of a schedule of two tasks, waiting at the join point between
    them. *)
Definition example_worker : LoadGenerator.t :=
  {| LoadGenerator.client_id := 0;
     LoadGenerator.config := {| test_mode_enabled := false; profiling := false |};
     LoadGenerator.tasks :=
       [JoinPointCell {| id := 0; clients_executing_completing_task := [] |};
        TaskCell (example_task "bulk" 1 0 2 true);
        JoinPointCell example_join_point;
        TaskCell (example_task "search" 1 0 2 false);
        JoinPointCell {| id := 2; clients_executing_completing_task := [] |}];
     LoadGenerator.current_task_index := 3;
     LoadGenerator.current_task := Some (JoinPointCell example_join_point);
     LoadGenerator.cancel := false;
     LoadGenerator.complete := false;
     LoadGenerator.executor_future := None;
     LoadGenerator.sampler := None;
     LoadGenerator.start_driving := false;
     LoadGenerator.wakeup_interval := LoadGenerator.WAKEUP_INTERVAL_SECONDS |}.

Definition example_env (now : Q) : LoadGenerator.Env :=
  {| LoadGenerator.perf_counter := now; LoadGenerator.awaited := None |}.

(** A coordinator at the start of a step: no load generator has reported
    the step's join point yet.  [Driver.__init__] leaves the coordinator in
    such a state, and so does the last report of every step. *)
Definition start_of_step (self : Driver.t) : Prop :=
  Driver.currently_completed self = 0 ∧
  Driver.clients_completed_current_step self = ∅.

(** The entry a report leaves in [clients_completed_current_step]. *)
Definition entry (r : Driver.Report) : Q * Q :=
  (Driver.r_client_local_timestamp r, Driver.r_received_at r).

(** [clients_completed_current_step] after the reports [rs] were entered
    into [reported], one after the other. *)
Definition recorded (rs : list Driver.Report) (reported : gmap nat (Q * Q))
    : gmap nat (Q * Q) :=
  foldl (λ reported r, <[Driver.r_client_id r := entry r]> reported) reported rs.

(** Two load generators report the join point of the first step one after
    the other, each with a local clock of its own: client 1 first, client 0
    last. *)
Definition example_first_report : Driver.Report :=
  {| Driver.r_client_id := 1;
     Driver.r_client_local_timestamp := 4%Q;
     Driver.r_task := example_join_point;
     Driver.r_received_at := 10%Q;
     Driver.r_scheduled_at := 10.5%Q |}.

Definition example_last_report : Driver.Report :=
  {| Driver.r_client_id := 0;
     Driver.r_client_local_timestamp := 7%Q;
     Driver.r_task := example_join_point;
     Driver.r_received_at := 12%Q;
     Driver.r_scheduled_at := 13%Q |}.

(** * Further closed forms and examples *)

(** ** Allocator *)






(** ** Sampler *)





(** ** Executor *)



(** ** Coordinator *)





(** * Further parts of the driver *)

(** ** Meta data *)

Module Postprocess.


End Postprocess.

(** ** Actors ([esrally/actor.py] and [DriverActor]) *)

(** The values of capabilities and requirements of actor systems. *)
Inductive pyvalue :=
| PyNone
| PyBool (b : bool)
| PyStr (s : string).

#[global] Instance pyvalue_eq_dec : EqDecision pyvalue.
Proof. solve_decision. Defined.

Module RallyActor.



Record t := {
  children : list nat;
  received_responses : list string;
  status : option string
}.




End RallyActor.

Module DriverActor.

Definition WAKEUP_INTERVAL_SECONDS : Q := 1%Q.


(** What the actor does for its coordinator. *)
Inductive Effect :=
| WakeupAfter (seconds : Q)
| ResetRelativeTime                    (* [coordinator.reset_relative_time()] *)
| UpdateProgressMessage                (* [coordinator.update_progress_message()] *)
| SendTaskFinished (next_task_scheduled_in : Q).

(** A failed [assert]. *)
Inductive AssertionError := assertion_failed (msg : string).

(** [on_task_finished(metrics, next_task_scheduled_in)]; the metrics are
    passed on as they are. *)
Definition on_task_finished (next_task_scheduled_in : Q) : AssertionError + list Effect :=
  if Qlt_le_dec 0 next_task_scheduled_in then
    if Qeq_bool next_task_scheduled_in WAKEUP_INTERVAL_SECONDS then
      inl (assertion_failed
             "Due to a (temporary) workaround the task schedule interval must be different than the wakeup interval.")
    else inr [WakeupAfter next_task_scheduled_in; SendTaskFinished next_task_scheduled_in]
  else inr [ResetRelativeTime; SendTaskFinished next_task_scheduled_in].


End DriverActor.


(** ** Time-period schedules *)

Module TimePeriod.

(** Where the body of [time_period_based] is suspended: before its first
    statement, at the [yield] of one of its three loops, or at its end. *)
Inductive pc :=
| Fresh
| Counted (start : Q) (iterations it : nat) (next_scheduled : Q)
| Eternal (start next_scheduled : Q)
| Bounded (start end_ : Q) (it : nat) (next_scheduled : Q)
| Finished.

(** The generator: the arguments of the call, with [size] for what
    [params.size()] returns, and the point of suspension. *)
Record t := {
  tp_sched : Scheduler;
  warmup_time_period : Q;
  time_period : option Q;
  tp_runner : Runner;
  tp_params : ParamSource;
  size : option nat;
  at_pc : pc
}.

(** The readings of [time.perf_counter()] during one advance of the
    generator, in the order they are taken. *)
Record Readings := { reading1 : Q; reading2 : Q; reading3 : Q }.

Definition resume (g : t) (ps : ParamSource) (pc : pc) : t :=
  {| tp_sched := tp_sched g; warmup_time_period := warmup_time_period g;
     time_period := time_period g; tp_runner := tp_runner g; tp_params := ps;
     size := size g; at_pc := pc |}.

(** [Warmup if now - start < warmup_time_period else Normal]. *)
Definition kind (g : t) (start now : Q) : SampleType :=
  if Qlt_le_dec (now - start) (warmup_time_period g) then Warmup else Normal.

Definition yield (g : t) (next_scheduled : Q) (sample_type : SampleType)
    (percent_completed : option Q) (pc : pc) : gen_result * t :=
  let '(p, ps) := params (tp_params g) in
  (Yielded {| expected_scheduled_time := next_scheduled;
              sample_type := sample_type;
              percent_completed := percent_completed;
              runner := tp_runner g;
              tuple_params := p |},
   resume g ps pc).

(** A turn of [for it in range(0, iterations)]. *)
Definition counted_head (g : t) (start : Q) (iterations it : nat)
    (next_scheduled now : Q) : gen_result * t :=
  if it <? iterations then
    yield g next_scheduled (kind g start now) (Some (progress it iterations))
      (Counted start iterations it next_scheduled)
  else (StopIteration, resume g (tp_params g) Finished).

(** A turn of [while True]. *)
Definition eternal_head (g : t) (start next_scheduled now : Q) : gen_result * t :=
  yield g next_scheduled (kind g start now) None (Eternal start next_scheduled).

(** A turn of [while time.perf_counter() < end]: [tested] is the reading of
    the loop test, [now] the one taken in the body. *)
Definition bounded_head (g : t) (start end_ : Q) (period : Q) (it : nat)
    (next_scheduled tested now : Q) : gen_result * t :=
  if Qlt_le_dec tested end_ then
    let total := (warmup_time_period g + period)%Q in
    if Qeq_bool total 0 then
      (Raised ZeroDivisionError, resume g (tp_params g) Finished)
    else
      yield g next_scheduled (kind g start now) (Some ((now - start) / total)%Q)
        (Bounded start end_ it next_scheduled)
  else (StopIteration, resume g (tp_params g) Finished).

(** Advancing the generator. *)
Definition gen_next (g : t) (clock : Readings) : gen_result * t :=
  match at_pc g with
  | Fresh =>
      let next_scheduled := 0%Q in
      let start := reading1 clock in
      match time_period g with
      | None =>
          match size g with
          | Some (S n) => counted_head g start (S n) 0 next_scheduled (reading2 clock)
          | _ => eternal_head g start next_scheduled (reading2 clock)
          end
      | Some period =>
          let end_ := (start + warmup_time_period g + period)%Q in
          bounded_head g start end_ period 0 next_scheduled
            (reading2 clock) (reading3 clock)
      end
  | Counted start iterations it next_scheduled =>
      counted_head g start iterations (S it) (next (tp_sched g) next_scheduled)
        (reading1 clock)
  | Eternal start next_scheduled =>
      eternal_head g start (next (tp_sched g) next_scheduled) (reading1 clock)
  | Bounded start end_ it next_scheduled =>
      match time_period g with
      | Some period =>
          bounded_head g start end_ period (S it) (next (tp_sched g) next_scheduled)
            (reading1 clock) (reading2 clock)
      | None => (StopIteration, resume g (tp_params g) Finished)
      end
  | Finished => (StopIteration, g)
  end.


(** Advancing the generator once for each of [clocks]: the tuples yielded,
    and how the iteration ended if it did. *)
Fixpoint consume (g : t) (clocks : list Readings) : list ScheduleTuple * option ending :=
  match clocks with
  | [] => ([], None)
  | clock :: clocks =>
      match gen_next g clock with
      | (Yielded tuple, g') =>
          let '(tuples, e) := consume g' clocks in (tuple :: tuples, e)
      | (StopIteration, _) => ([], Some Exhausted)
      | (Raised e, _) => ([], Some (Failed e))
      end
  end.

End TimePeriod.






(** ** Global throughput *)

Module Throughput.






(** [max(a, b)] of two numbers: [b] only if it is greater than [a]. *)
Definition max (a b : Q) : Q := if Qlt_le_dec a b then b else a.





Section grouping.

(** Whether two tasks are the same key of a dictionary: [Task] is declared
    in [esrally.track], its hash and equality are left open. *)
Variable same_task : Task → Task → bool.




End grouping.

End Throughput.



(** * Properties *)

(** ** Schedule generator *)

Section iteration_count.
Variables (sc : Scheduler) (w i : nat) (r : Runner) (ps : ParamSource).

Local Abbreviation gen_at := (gen_at sc w i r ps).
Local Abbreviation tuple_at := (tuple_at sc w i r ps).

Lemma loop_head_yields n it ns pc :
  it < w + i →
  loop_head (gen_at n pc) it ns =
    (Yielded {| expected_scheduled_time := ns;
                sample_type := if it <? w then Warmup else Normal;
                percent_completed := Some (progress it (w + i));
                runner := r;
                tuple_params := {| p_operation := ps_operation ps;
                                   p_client_index := ps_client_index ps;
                                   p_num_clients := ps_num_clients ps;
                                   p_index := drawn ps + n |} |},
     gen_at (S n) (Suspended it ns)).
Proof.
  intros Hlt. unfold loop_head; simpl.
  apply Nat.ltb_lt in Hlt as ->.
  unfold gen_at, set_pc; simpl. by rewrite Nat.add_succ_r.
Qed.

Lemma loop_head_stops n it ns pc :
  w + i ≤ it →
  (loop_head (gen_at n pc) it ns).1 = StopIteration.
Proof.
  intros Hge. unfold loop_head; simpl.
  by apply Nat.ltb_ge in Hge as ->.
Qed.

Lemma consume_suspended n it :
  S it + n = w + i →
  consume (S n) (gen_at (S it) (Suspended it (Nat.iter it (next sc) 0%Q))) =
    Some (tuple_at <$> seq (S it) n, Exhausted).
Proof.
  revert it. induction n as [|n IH]; intros it Hsum.
  - simpl. unfold gen_next; simpl.
    pose proof (loop_head_stops (S it) (S it)
                  (next sc (Nat.iter it (next sc) 0%Q))
                  (Suspended it (Nat.iter it (next sc) 0%Q))) as Hstop.
    destruct (loop_head _ _ _) as [res g']; simpl in Hstop.
    rewrite Hstop; [done | lia].
  - change (consume (S (S n)) ?g) with
      (match gen_next g with
       | (Yielded t, g') =>
           match consume (S n) g' with
           | Some (ts, e) => Some (t :: ts, e)
           | None => None
           end
       | (StopIteration, _) => Some ([], Exhausted)
       | (Raised e, _) => Some ([], Failed e)
       end).
    unfold gen_next at 1. cbn [g_pc gen_at g_sched].
    rewrite loop_head_yields by lia.
    change (next sc (Nat.iter it (next sc) 0%Q)) with (Nat.iter (S it) (next sc) 0%Q).
    rewrite (IH (S it)) by lia. done.
Qed.

Lemma consume_fresh :
  0 < w + i →
  consume (S (w + i)) (iteration_count_based sc w i r ps) =
    Some (tuple_at <$> seq 0 (w + i), Exhausted).
Proof.
  intros Hpos.
  assert (iteration_count_based sc w i r ps = gen_at 0 Fresh) as ->.
  { unfold iteration_count_based, gen_at. destruct ps; simpl. by rewrite Nat.add_0_r. }
  destruct (w + i) as [|n] eqn:Htotal; [lia|].
  change (consume (S (S n)) ?g) with
    (match gen_next g with
     | (Yielded t, g') =>
         match consume (S n) g' with
         | Some (ts, e) => Some (t :: ts, e)
         | None => None
         end
     | (StopIteration, _) => Some ([], Exhausted)
     | (Raised e, _) => Some ([], Failed e)
     end).
  unfold gen_next at 1. cbn [g_pc gen_at g_warmup_iterations g_iterations].
  rewrite Htotal. cbn [Nat.eqb].
  rewrite loop_head_yields by lia.
  pose proof (consume_suspended n 0) as Hrest. simpl Nat.iter in Hrest.
  rewrite Hrest by lia.
  simpl. unfold tuple_at at 2. simpl. rewrite Htotal, Nat.add_0_r. done.
Qed.

Lemma consume_nothing fuel :
  w + i = 0 →
  consume (S fuel) (iteration_count_based sc w i r ps) =
    Some ([], Failed (RallyAssertionError "Operation must run at least for one iteration.")).
Proof.
  intros Hzero. simpl. unfold gen_next; simpl. by rewrite Hzero.
Qed.

End iteration_count.

Lemma consume_more fuel fuel' g res :
  consume fuel g = Some res → fuel ≤ fuel' → consume fuel' g = Some res.
Proof.
  revert fuel' g res. induction fuel as [|fuel IH]; intros fuel' g res Hres Hle.
  - discriminate.
  - destruct fuel' as [|fuel']; [lia|].
    simpl in *. destruct (gen_next g) as [[t| |e] g']; try done.
    destruct (consume fuel g') as [[ts e]|] eqn:Hrest; [|done].
    rewrite (IH fuel' g' (ts, e)); [done|done|lia].
Qed.

Lemma schedule_for_iteration_count task client_index :
  iteration_count_task task → 0 < clients task →
  schedule_for task client_index =
    inr (IterationCountBased
           (iteration_count_based (sched task)
              (warmup_iterations task / clients task)
              (iterations task / clients task)
              {| runner_for := op_type (operation task) |}
              (partition (operation task) client_index (clients task)))).
Proof.
  intros [Hw Ht] Hn. unfold schedule_for. rewrite Hw, Ht.
  rewrite bool_decide_eq_false_2.
  2:{ intros [[? [=]]|[? [=]]]. }
  unfold floordiv. destruct (clients task =? 0) eqn:Hz; [|done].
  apply Nat.eqb_eq in Hz. lia.
Qed.

(** Without clients the floor divisions fail. *)
Lemma schedule_for_no_clients task client_index :
  iteration_count_task task → clients task = 0 →
  schedule_for task client_index = inl ZeroDivisionError.
Proof.
  intros [Hw Ht] Hn. unfold schedule_for. rewrite Hw, Ht.
  rewrite bool_decide_eq_false_2.
  2:{ intros [[? [=]]|[? [=]]]. }
  unfold floordiv. by rewrite Hn.
Qed.

(** C1 (as amended): for an iteration-count task with [N = clients] whose
    per-client counts [warmup_iterations // N] and [iterations // N] are not
    both zero, the schedule of one client yields exactly
    [warmup_iterations // N + iterations // N] tuples and then ends; the
    first [warmup_iterations // N] of them have kind Warmup and all later
    ones kind Normal.  (The counts are divided separately, so the total can
    be below [(warmup_iterations + iterations) // N].) *)
Theorem iteration_count_schedule_kinds (task : Task) (client_index : nat) :
  iteration_count_task task →
  0 < clients task →
  0 < warmup_iterations task / clients task + iterations task / clients task →
  ∃ g tuples,
    schedule_for task client_index = inr (IterationCountBased g) ∧
    (∀ fuel,
       warmup_iterations task / clients task + iterations task / clients task < fuel →
       consume fuel g = Some (tuples, Exhausted)) ∧
    length tuples =
      warmup_iterations task / clients task + iterations task / clients task ∧
    ∀ k tuple, tuples !! k = Some tuple →
      sample_type tuple =
        if k <? warmup_iterations task / clients task then Warmup else Normal.
Proof.
  intros Hkind Hn Hpos.
  set (w := warmup_iterations task / clients task) in *.
  set (i := iterations task / clients task) in *.
  eexists _, _. split; [by apply schedule_for_iteration_count|].
  split; [|split].
  - intros fuel Hfuel. eapply consume_more; [by apply consume_fresh|lia].
  - by rewrite length_fmap, length_seq.
  - intros k tuple Hk.
    apply list_lookup_fmap_Some in Hk as (it & -> & Hit).
    apply lookup_seq in Hit as [-> _]. done.
Qed.

Lemma iteration_count_schedule_kinds_witness :
  ∃ g tuples,
    schedule_for (example_task "bulk" 2 3 3 false) 0 = inr (IterationCountBased g) ∧
    (∀ fuel, 3 / 2 + 3 / 2 < fuel → consume fuel g = Some (tuples, Exhausted)) ∧
    length tuples = 3 / 2 + 3 / 2 ∧
    ∀ k tuple, tuples !! k = Some tuple →
      sample_type tuple = if k <? 3 / 2 then Warmup else Normal.
Proof.
  apply (iteration_count_schedule_kinds (example_task "bulk" 2 3 3 false) 0).
  - split; reflexivity.
  - simpl. lia.
  - simpl. lia.
Defined.

(** C1 as stated fails: with 3 warmup iterations, 3 iterations and 2 clients
    a client's schedule yields 2 tuples, not [(3 + 3) // 2 = 3]. *)
Lemma iteration_count_schedule_total_counterexample :
  ∃ g tuples,
    schedule_for (example_task "bulk" 2 3 3 false) 0 = inr (IterationCountBased g) ∧
    consume 10 g = Some (tuples, Exhausted) ∧
    length tuples ≠ (3 + 3) / 2.
Proof.
  eexists _, _. split; [reflexivity|]. split; [reflexivity|].
  simpl. lia.
Qed.

(** C7 (as amended): the tuple yielded in turn [k], counting from 0, carries
    the progress [(k + 1) / total], where [total] is the number of tuples of
    the schedule; the last tuple carries progress 1. *)
Theorem iteration_count_schedule_progress (task : Task) (client_index : nat) :
  iteration_count_task task →
  0 < clients task →
  0 < warmup_iterations task / clients task + iterations task / clients task →
  ∃ g tuples,
    schedule_for task client_index = inr (IterationCountBased g) ∧
    (∀ fuel,
       warmup_iterations task / clients task + iterations task / clients task < fuel →
       consume fuel g = Some (tuples, Exhausted)) ∧
    ∀ k tuple, tuples !! k = Some tuple →
      ∃ p, percent_completed tuple = Some p ∧
           (p == inject_Z (Z.of_nat (k + 1)) / inject_Z (Z.of_nat (length tuples)))%Q.
Proof.
  intros Hkind Hn Hpos.
  set (w := warmup_iterations task / clients task) in *.
  set (i := iterations task / clients task) in *.
  eexists _, _. split; [by apply schedule_for_iteration_count|].
  split.
  - intros fuel Hfuel. eapply consume_more; [by apply consume_fresh|lia].
  - intros k tuple Hk.
    apply list_lookup_fmap_Some in Hk as (it & -> & Hit).
    apply lookup_seq in Hit as [-> _].
    eexists. split; [reflexivity|].
    rewrite length_fmap, length_seq. unfold progress. reflexivity.
Qed.

Lemma iteration_count_schedule_progress_witness :
  ∃ g tuples,
    schedule_for (example_task "search" 1 0 2 false) 0 = inr (IterationCountBased g) ∧
    (∀ fuel, 0 / 1 + 2 / 1 < fuel → consume fuel g = Some (tuples, Exhausted)) ∧
    ∀ k tuple, tuples !! k = Some tuple →
      ∃ p, percent_completed tuple = Some p ∧
           (p == inject_Z (Z.of_nat (k + 1)) / inject_Z (Z.of_nat (length tuples)))%Q.
Proof.
  apply (iteration_count_schedule_progress (example_task "search" 1 0 2 false) 0).
  - split; reflexivity.
  - simpl. lia.
  - simpl. lia.
Defined.

(** C7 as stated fails: of the two tuples of a task with 2 iterations and 1
    client, the first (index 0) carries progress 1/2, not [0 / 2]. *)
Lemma iteration_count_schedule_progress_counterexample :
  ∃ g tuples tuple p,
    schedule_for (example_task "search" 1 0 2 false) 0 = inr (IterationCountBased g) ∧
    consume 10 g = Some (tuples, Exhausted) ∧
    tuples !! 0 = Some tuple ∧
    percent_completed tuple = Some p ∧
    ¬ (p == inject_Z (Z.of_nat 0) / inject_Z (Z.of_nat (length tuples)))%Q.
Proof.
  eexists _, _, _, _.
  split; [reflexivity|]. split; [reflexivity|].
  split; [reflexivity|]. split; [reflexivity|].
  intros Heq. vm_compute in Heq. discriminate.
Qed.

(** C9: when [warmup_iterations // N + iterations // N] is zero, the
    iteration-count schedule of the task raises the assertion error
    "Operation must run at least for one iteration." and yields no tuple:
    the generator [schedule_for] hands out fails the first time it is
    advanced. *)
Theorem iteration_count_schedule_empty (task : Task) (client_index : nat) :
  iteration_count_task task →
  0 < clients task →
  warmup_iterations task / clients task + iterations task / clients task = 0 →
  ∃ g,
    schedule_for task client_index = inr (IterationCountBased g) ∧
    (gen_next g).1 =
      Raised (RallyAssertionError "Operation must run at least for one iteration.") ∧
    ∀ fuel, 0 < fuel →
      consume fuel g =
        Some ([], Failed (RallyAssertionError "Operation must run at least for one iteration.")).
Proof.
  intros Hkind Hn Hzero.
  eexists. split; [by apply schedule_for_iteration_count|]. split.
  - unfold gen_next; simpl. by rewrite Hzero.
  - intros [|fuel] Hfuel; [lia|]. by apply consume_nothing.
Qed.

Lemma iteration_count_schedule_empty_witness :
  ∃ g,
    schedule_for (example_task "bulk" 2 1 1 false) 0 = inr (IterationCountBased g) ∧
    (gen_next g).1 =
      Raised (RallyAssertionError "Operation must run at least for one iteration.") ∧
    ∀ fuel, 0 < fuel →
      consume fuel g =
        Some ([], Failed (RallyAssertionError "Operation must run at least for one iteration.")).
Proof.
  apply (iteration_count_schedule_empty (example_task "bulk" 2 1 1 false) 0).
  - split; reflexivity.
  - simpl. lia.
  - reflexivity.
Defined.

(** ** Allocator *)

Section rows.

Lemma append_at_lookup i c (m : list (list Cell)) r :
  Allocator.append_at i c m !! r =
    (λ row, if decide (i = r) then row ++ [c] else row) <$> (m !! r).
Proof.
  unfold Allocator.append_at. rewrite list_lookup_alter.
  destruct (decide (i = r)) as [->|Hne]; by destruct (m !! r).
Qed.

Lemma length_append_at i c (m : list (list Cell)) : length (Allocator.append_at i c m) = length m.
Proof. apply length_alter. Qed.

Lemma length_append_range lo len c (m : list (list Cell)) :
  length (Allocator.append_range lo len c m) = length m.
Proof.
  unfold Allocator.append_range. revert lo m. induction len as [|len IH]; intros lo m; [done|].
  simpl. by rewrite IH, length_append_at.
Qed.

Lemma append_range_lookup lo len c (m : list (list Cell)) r :
  Allocator.append_range lo len c m !! r =
    (λ row, if decide (lo ≤ r < lo + len) then row ++ [c] else row) <$> (m !! r).
Proof.
  unfold Allocator.append_range. revert lo m. induction len as [|len IH]; intros lo m.
  - simpl. destruct (m !! r); simpl; [|done]. rewrite decide_False; [done|lia].
  - simpl. rewrite IH, append_at_lookup.
    destruct (m !! r) as [row|]; simpl; [|done]. f_equal.
    repeat case_decide; try done; lia.
Qed.

Lemma share_0 n r : 0 < n → share n r 0 = 0.
Proof.
  intros Hn. unfold share. rewrite Nat.Div0.div_0_l, Nat.Div0.mod_0_l. done.
Qed.

Lemma share_S n r c :
  0 < n → r < n →
  share n r (S c) = share n r c + (if decide (c mod n = r) then 1 else 0).
Proof.
  intros Hn Hr. unfold share.
  pose proof (Nat.div_mod_eq c n) as Hc.
  pose proof (Nat.mod_upper_bound c n ltac:(lia)) as Hcm.
  destruct (decide (S (c mod n) = n)) as [Hwrap|Hnowrap].
  - rewrite <- (Nat.div_unique (S c) n (S (c / n)) 0) by lia.
    rewrite <- (Nat.mod_unique (S c) n (S (c / n)) 0) by lia.
    destruct (Nat.ltb_spec r 0); [lia|].
    destruct (Nat.ltb_spec r (c mod n)); case_decide; lia.
  - rewrite <- (Nat.div_unique (S c) n (c / n) (S (c mod n))) by lia.
    rewrite <- (Nat.mod_unique (S c) n (c / n) (S (c mod n))) by lia.
    destruct (Nat.ltb_spec r (c mod n)); destruct (Nat.ltb_spec r (S (c mod n)));
      case_decide; lia.
Qed.

End rows.

Section group.
Variables (n : nat) (g : Group) (m0 : list (list Cell)).
Hypothesis Hn : 0 < n.
Hypothesis Hm0 : length m0 = n.

Lemma extends_start : extends n g m0 m0 0.
Proof.
  split; [done|]. intros r row0 Hrow. exists [].
  rewrite app_nil_r, share_0 by done. by repeat split.
Qed.

Lemma extends_assign_client t comp m c :
  t ∈ sub_tasks g →
  extends n g m0 m c →
  extends n g m0 (Allocator.assign_client n t (comp, m) c).2 (S c).
Proof.
  intros Ht [Hlen Hrows]. simpl. split.
  - by rewrite length_append_at.
  - intros r row0 Hrow.
    destruct (Hrows r row0 Hrow) as (blk & Hm & Hblk & Hcells).
    assert (r < n) as Hr by (rewrite <- Hm0; by eapply lookup_lt_Some).
    rewrite append_at_lookup, Hm; simpl.
    rewrite share_S by done. case_decide.
    + exists (blk ++ [TaskCell t]). rewrite app_assoc. split; [done|].
      split; [rewrite length_app; simpl; lia|].
      apply Forall_app. split; [done|]. apply Forall_singleton. right. eauto.
    + exists blk. split; [done|]. split; [lia|done].
Qed.

Lemma extends_assign_clients t len :
  t ∈ sub_tasks g →
  ∀ c comp m,
    extends n g m0 m c →
    extends n g m0 (foldl (Allocator.assign_client n t) (comp, m) (seq c len)).2 (c + len).
Proof.
  intros Ht. induction len as [|len IH]; intros c comp m Hext.
  - by rewrite Nat.add_0_r.
  - cbn [seq foldl].
    pose proof (extends_assign_client t comp m c Ht Hext) as Hstep.
    destruct (Allocator.assign_client n t (comp, m) c) as [comp' m'] eqn:Hac.
    rewrite Nat.add_succ_r. apply (IH (S c)). exact Hstep.
Qed.

Lemma extends_assign_sub_tasks ts :
  ts ⊆ sub_tasks g →
  ∀ c comp m,
    extends n g m0 m c →
    extends n g m0 (foldl (Allocator.assign_sub_task n) (c, (comp, m)) ts).2.2
                   (foldl (Allocator.assign_sub_task n) (c, (comp, m)) ts).1.
Proof.
  induction ts as [|t ts IH]; intros Hsub c comp m Hext; [done|].
  cbn [foldl]. unfold Allocator.assign_sub_task at 2 4.
  assert (t ∈ sub_tasks g) as Ht by (apply Hsub; left).
  pose proof (extends_assign_clients t (clients t) Ht c comp m Hext) as Hstep.
  destruct (foldl (Allocator.assign_client n t) (comp, m) (seq c (clients t))) as [comp' m'].
  apply IH; [|done]. intros x Hx. apply Hsub. by right.
Qed.

Lemma fill_none_rows m c :
  extends n g m0 m c →
  length (Allocator.fill_none n c m) = n ∧
  ∀ r row0, m0 !! r = Some row0 →
    ∃ blk, Allocator.fill_none n c m !! r = Some (row0 ++ blk) ∧
           length blk = c / n + (if 0 <? c mod n then 1 else 0) ∧
           Forall (cell_of_group g) blk.
Proof.
  intros [Hlen Hrows]. unfold Allocator.fill_none.
  destruct (Nat.ltb_spec 0 (c mod n)) as [Hpos|Hzero].
  - split; [by rewrite length_append_range, Hlen|].
    intros r row0 Hrow.
    destruct (Hrows r row0 Hrow) as (blk & Hm & Hblk & Hcells).
    assert (r < n) as Hr by (rewrite <- Hm0; by eapply lookup_lt_Some).
    rewrite append_range_lookup, Hm; simpl.
    unfold share in Hblk.
    destruct (Nat.ltb_spec r (c mod n)); case_decide; try lia.
    + exists blk. by repeat split.
    + exists (blk ++ [NoneCell]). rewrite app_assoc. split; [done|].
      split; [rewrite length_app; simpl; lia|].
      apply Forall_app. split; [done|]. apply Forall_singleton. by left.
  - split; [by rewrite Hlen|].
    intros r row0 Hrow.
    destruct (Hrows r row0 Hrow) as (blk & Hm & Hblk & Hcells).
    exists blk. split; [done|]. split; [|done].
    unfold share in Hblk.
    destruct (Nat.ltb_spec r (c mod n)); lia.
Qed.

Lemma allocate_group_rows jid :
  ∃ h jp,
    (Allocator.allocate_group n (jid, m0) g).1 = jid + 1 ∧
    length (Allocator.allocate_group n (jid, m0) g).2 = n ∧
    id jp = jid ∧
    ∀ r row0, m0 !! r = Some row0 →
      ∃ blk, (Allocator.allocate_group n (jid, m0) g).2 !! r = Some (row0 ++ blk ++ [JoinPointCell jp]) ∧
             length blk = h ∧
             Forall (cell_of_group g) blk.
Proof.
  unfold Allocator.allocate_group.
  pose proof (extends_assign_sub_tasks (sub_tasks g) (λ x Hx, Hx) 0 [] m0 extends_start)
    as Hext.
  destruct (foldl (Allocator.assign_sub_task n) (0, ([], m0)) (sub_tasks g)) as [c [comp m]].
  simpl in Hext. destruct (fill_none_rows m c Hext) as [Hlen Hrows].
  exists (c / n + (if 0 <? c mod n then 1 else 0)),
    {| id := jid; clients_executing_completing_task := comp |}.
  simpl. split; [done|].
  split; [by rewrite length_append_range|]. split; [done|].
  intros r row0 Hrow.
  destruct (Hrows r row0 Hrow) as (blk & Hm & Hblk & Hcells).
  assert (r < n) as Hr by (rewrite <- Hm0; by eapply lookup_lt_Some).
  exists blk. rewrite append_range_lookup, Hm; simpl.
  rewrite decide_True by lia. rewrite <- app_assoc. by repeat split.
Qed.

End group.

Lemma shaped_allocate_group n g m0 cols jid :
  0 < n → length m0 = n → shaped cols m0 →
  ∃ h jp,
    shaped (cols ++ replicate h (GroupColumn g) ++ [JoinPointColumn jp])
           (Allocator.allocate_group n (jid, m0) g).2 ∧
    length (Allocator.allocate_group n (jid, m0) g).2 = n.
Proof.
  intros Hn Hm0 Hshaped.
  destruct (allocate_group_rows n g m0 Hn Hm0 jid) as (h & jp & _ & Hlen & _ & Hrows).
  exists h, jp. split; [|done].
  intros r row Hrow.
  assert (r < length m0) as Hr.
  { rewrite Hm0, <- Hlen. by eapply lookup_lt_Some. }
  apply lookup_lt_is_Some in Hr as [row0 Hrow0].
  destruct (Hrows r row0 Hrow0) as (blk & Hm & Hblk & Hcells).
  rewrite Hm in Hrow. injection Hrow as <-.
  apply Forall2_app; [by eapply Hshaped|].
  apply Forall2_app.
  - apply Forall2_replicate_r; [done|].
    eapply Forall_impl; [exact Hcells|]. done.
  - by repeat constructor.
Qed.

Lemma shaped_allocations_fold n (all : list Group) :
  0 < n →
  ∀ gs jid m cols,
    gs ⊆ all → length m = n → shaped cols m → Forall (kind_of all) cols →
    ∃ cols',
      shaped cols' (foldl (Allocator.allocate_group n) (jid, m) gs).2 ∧
      length (foldl (Allocator.allocate_group n) (jid, m) gs).2 = n ∧
      Forall (kind_of all) cols'.
Proof.
  intros Hn. induction gs as [|g gs IH]; intros jid m cols Hsub Hm Hshaped Hkinds.
  - exists cols. by repeat split.
  - cbn [foldl].
    destruct (shaped_allocate_group n g m cols jid Hn Hm Hshaped) as (h & jp & Hstep & Hlen).
    destruct (Allocator.allocate_group n (jid, m) g) as [jid' m'].
    eapply IH; [|done|done|].
    + intros x Hx. apply Hsub. by right.
    + apply Forall_app. split; [done|]. apply Forall_app. split.
      * apply Forall_replicate. simpl. apply Hsub. by left.
      * by repeat constructor.
Qed.

Lemma clients_max schedule a :
  foldl (λ max_clients task, Nat.max max_clients (group_clients task)) a schedule =
    a `max` max_list (group_clients <$> schedule).
Proof.
  revert a. induction schedule as [|g gs IH]; intros a.
  - simpl. lia.
  - cbn [foldl]. rewrite IH, fmap_cons. cbn [max_list max_list_with].
    unfold Datatypes.id. lia.
Qed.

Lemma shaped_allocations schedule :
  ∃ cols,
    shaped cols (Allocator.allocations schedule) ∧
    length (Allocator.allocations schedule) = Allocator.clients schedule ∧
    Forall (kind_of schedule) cols.
Proof.
  unfold Allocator.allocations.
  assert (0 < Allocator.clients schedule) as Hn.
  { unfold Allocator.clients. rewrite clients_max. lia. }
  eapply (shaped_allocations_fold _ schedule Hn schedule _ _
            [JoinPointColumn {| id := 0; clients_executing_completing_task := [] |}]);
    [done| | |].
  - by rewrite length_append_range, length_replicate.
  - intros r row Hrow. rewrite append_range_lookup in Hrow.
    destruct (replicate _ _ !! r) as [row0|] eqn:Hrow0; [|done].
    apply lookup_replicate in Hrow0 as [-> Hr].
    simpl in Hrow. rewrite decide_True in Hrow by lia.
    injection Hrow as <-. by repeat constructor.
  - by repeat constructor.
Qed.

(** C3 (as amended): the allocation matrix is rectangular, and its number of
    rows is the largest [clients] value of the elements of the schedule (the
    groups), and at least 1.  For a group that is a single task, that value
    is the task's [clients]; a parallel group has a [clients] value of its
    own, which need not be the maximum over its sub-tasks. *)
Theorem allocations_rectangular (schedule : list Group) :
  length (Allocator.allocations schedule) = Allocator.clients schedule ∧
  Allocator.clients schedule = 1 `max` max_list (group_clients <$> schedule) ∧
  ∃ width, ∀ row, row ∈ Allocator.allocations schedule → length row = width.
Proof.
  destruct (shaped_allocations schedule) as (cols & Hshaped & Hlen & _).
  split; [done|]. split; [apply clients_max|].
  exists (length cols). intros row Hrow.
  apply list_elem_of_lookup in Hrow as [r Hr].
  by eapply Forall2_length, Hshaped.
Qed.

(** C3 as stated fails: the parallel group of [a] (1 client) and [b]
    (2 clients) takes 3 clients, so the matrix has 3 rows, while the largest
    [clients] of a sub-task is 2.  Also, the matrix of the empty schedule has
    one row (the initial join point), with no sub-task at all. *)
Lemma allocations_rows_counterexample :
  length (Allocator.allocations [example_parallel]) ≠
    max_list (clients <$> ([example_parallel] ≫= sub_tasks)) ∧
  length (Allocator.allocations []) ≠ max_list (clients <$> ([] ≫= sub_tasks)).
Proof. split; vm_compute; lia. Qed.

(** A column holds one join point, or cells of one group. *)
Lemma columns_of_allocations (schedule : list Group) (idx : nat) :
  (∃ j, ∀ c, Some c ∈ column (Allocator.allocations schedule) idx → c = JoinPointCell j) ∨
  (∃ g, g ∈ schedule ∧
        ∀ c, Some c ∈ column (Allocator.allocations schedule) idx →
             c = NoneCell ∨ ∃ t, t ∈ sub_tasks g ∧ c = TaskCell t).
Proof.
  destruct (shaped_allocations schedule) as (cols & Hshaped & _ & Hkinds).
  assert (∀ c k, Some c ∈ column (Allocator.allocations schedule) idx →
                 cols !! idx = Some k → fits c k) as Hfits.
  { intros c k Hc Hk. unfold column in Hc.
    apply list_elem_of_fmap in Hc as (row & Hc & Hrow).
    apply list_elem_of_lookup in Hrow as [r Hr].
    eapply Forall2_lookup_lr; [by eapply Hshaped| |done]. done. }
  destruct (cols !! idx) as [[j|g]|] eqn:Hk.
  - left. exists j. intros c Hc. by apply (Hfits c (JoinPointColumn j)).
  - right. exists g. split.
    + by apply (Forall_lookup_1 _ _ _ _ Hkinds Hk).
    + intros c Hc. by apply (Hfits c (GroupColumn g)).
  - left. exists {| id := 0; clients_executing_completing_task := [] |}.
    intros c Hc. unfold column in Hc.
    apply list_elem_of_fmap in Hc as (row & Hc & Hrow).
    apply list_elem_of_lookup in Hrow as [r Hr].
    pose proof (Forall2_length _ _ _ (Hshaped r row Hr)) as Hlen.
    apply lookup_ge_None in Hk.
    symmetry in Hc. apply lookup_lt_Some in Hc. lia.
Qed.

(** In a schedule of plain tasks, all tasks of a column are the same task. *)
Lemma columns_of_single_tasks (tasks : list Task) (idx : nat) :
  (∃ j, ∀ c, Some c ∈ column (Allocator.allocations (single <$> tasks)) idx →
             c = JoinPointCell j) ∨
  (∃ t, t ∈ tasks ∧
        ∀ c, Some c ∈ column (Allocator.allocations (single <$> tasks)) idx →
             c = NoneCell ∨ c = TaskCell t).
Proof.
  destruct (columns_of_allocations (single <$> tasks) idx) as [Hjoin|(g & Hg & Hcells)];
    [by left|].
  right. apply list_elem_of_fmap in Hg as (t & -> & Ht).
  exists t. split; [done|]. intros c Hc.
  destruct (Hcells c Hc) as [->|(t' & Ht' & ->)]; [by left|].
  right. simpl in Ht'. by apply list_elem_of_singleton in Ht' as ->.
Qed.

(** The rows of a schedule of plain tasks. *)
Lemma clients_of_single_tasks (tasks : list Task) :
  Allocator.clients (single <$> tasks) = 1 `max` max_list (clients <$> tasks).
Proof.
  unfold Allocator.clients. rewrite clients_max, <- list_fmap_compose. done.
Qed.

(** C2 (as amended): every column of the allocation matrix is either a
    join point column, all of whose cells are the same join point, or a
    column without join points whose cells are [None] or sub-tasks of one
    and the same group of the schedule.  The tasks of such a column are the
    same task when the group has a single sub-task; the sub-tasks of a
    parallel group share columns. *)
Theorem allocations_columns (schedule : list Group) (idx : nat) :
  (∃ j, ∀ c, Some c ∈ column (Allocator.allocations schedule) idx → c = JoinPointCell j) ∨
  (∃ g, g ∈ schedule ∧
        ∀ c, Some c ∈ column (Allocator.allocations schedule) idx →
             c = NoneCell ∨ ∃ t, t ∈ sub_tasks g ∧ c = TaskCell t).
Proof. apply columns_of_allocations. Qed.

(** C2 as stated fails: in the matrix of the parallel group of [a] (1 client)
    and [b] (2 clients), column 1 holds [a] for client 0 and [b] for clients
    1 and 2: two distinct tasks.  The same happens when the group's own
    [clients] value is 2, the largest of its sub-tasks. *)
Lemma allocations_columns_counterexample :
  column (Allocator.allocations [example_parallel]) 1 =
    [Some (TaskCell (example_task "a" 1 0 1 true));
     Some (TaskCell (example_task "b" 2 0 2 false));
     Some (TaskCell (example_task "b" 2 0 2 false))] ∧
  column (Allocator.allocations
            [{| group_clients := 2; sub_tasks := sub_tasks example_parallel |}]) 1 =
    [Some (TaskCell (example_task "a" 1 0 1 true));
     Some (TaskCell (example_task "b" 2 0 2 false))] ∧
  example_task "a" 1 0 1 true ≠ example_task "b" 2 0 2 false.
Proof. split; [reflexivity|]. split; [reflexivity|discriminate]. Qed.

(** ** Sampler *)

Lemma samples_loop_drains (queue : Queue.t) (samples : list Sample) :
  Sampler.samples_loop queue samples =
    (samples ++ Queue.items queue,
     {| Queue.maxsize := Queue.maxsize queue; Queue.items := [] |}).
Proof.
  funelim (Sampler.samples_loop queue samples).
  - clear H Heqcall. unfold Queue.get_nowait in Hget.
    destruct queue as [maxsize items]; simpl in *.
    destruct items; simplify_eq/=. by rewrite app_nil_r.
  - rewrite H. clear H H0 Heqcall.
    unfold Queue.get_nowait in Hget.
    destruct (Queue.items queue) as [|item' rest] eqn:Hitems; simplify_eq/=.
    by rewrite <- app_assoc.
Qed.

(** C8: the sampler's queue holds at most 16384 samples.  [add] returns
    without an exception: when the queue already holds 16384 samples the
    sampler is unchanged (the new sample is dropped), otherwise the sample is
    appended behind the queued ones.  The [samples] property returns the
    queued samples in insertion order and leaves the queue empty. *)
Theorem sampler_bounded_queue (self : Sampler.t)
    (time_time perf_counter : Q) (sample_type : SampleType)
    (request_meta_data : RequestMetaData) (latency_ms service_time_ms : Q)
    (total_ops : nat) (total_ops_unit : string) (time_period : Q)
    (percent_completed : option Q) :
  Queue.maxsize (Sampler.q self) = 16384 →
  Queue.qsize (Sampler.q self) ≤ 16384 →
  let sample :=
    {| client_id := Sampler.sampler_client_id self;
       absolute_time := time_time;
       relative_time := (perf_counter - Sampler.start_timestamp self)%Q;
       task := Sampler.sampler_task self;
       s_sample_type := sample_type;
       request_meta_data := request_meta_data;
       latency_ms := latency_ms;
       service_time_ms := service_time_ms;
       total_ops := total_ops;
       total_ops_unit := total_ops_unit;
       s_time_period := time_period;
       s_percent_completed := percent_completed |} in
  let added :=
    Sampler.add self time_time perf_counter sample_type request_meta_data
      latency_ms service_time_ms total_ops total_ops_unit time_period percent_completed in
  (Queue.qsize (Sampler.q self) = 16384 → added = inr self) ∧
  (Queue.qsize (Sampler.q self) < 16384 →
   added = inr (Sampler.with_q self
                  {| Queue.maxsize := 16384;
                     Queue.items := Queue.items (Sampler.q self) ++ [sample] |})) ∧
  (∃ self', added = inr self' ∧
            Queue.maxsize (Sampler.q self') = 16384 ∧
            Queue.qsize (Sampler.q self') ≤ 16384) ∧
  Sampler.samples self =
    (Queue.items (Sampler.q self),
     Sampler.with_q self {| Queue.maxsize := 16384; Queue.items := [] |}).
Proof.
  intros Hmax Hsize sample added.
  assert (0 < 16384) as Hcap by (apply Nat.ltb_lt; vm_compute; reflexivity).
  subst added. unfold Sampler.add, Queue.put_nowait. fold sample. rewrite Hmax.
  set (cap := 16384) in *. clearbody cap.
  destruct (Nat.ltb_spec 0 cap) as [_|?]; [|lia].
  split; [|split; [|split]].
  - intros Hfull. rewrite Hfull, Nat.leb_refl. done.
  - intros Hfree. destruct (Nat.leb_spec cap (Queue.qsize (Sampler.q self))); [lia|done].
  - destruct (Nat.leb_spec cap (Queue.qsize (Sampler.q self))); simpl.
    + by exists self.
    + eexists. split; [done|]. simpl. split; [done|].
      unfold Queue.qsize in *. simpl. rewrite length_app. simpl. lia.
  - unfold Sampler.samples. rewrite samples_loop_drains, Hmax. done.
Qed.

Lemma sampler_bounded_queue_witness :
  let self := Sampler.init 0 (example_task "bulk" 1 0 1 false) 0%Q in
  let ok := {| success := true; error_description := None; http_status := None |} in
  ∃ sample,
    (Queue.qsize (Sampler.q self) < 16384 →
     Sampler.add self 7%Q 3%Q Normal ok 2%Q 2%Q 1 "ops" 3%Q None =
       inr (Sampler.with_q self
              {| Queue.maxsize := 16384;
                 Queue.items := Queue.items (Sampler.q self) ++ [sample] |})) ∧
    Sampler.samples self =
      (Queue.items (Sampler.q self),
       Sampler.with_q self {| Queue.maxsize := 16384; Queue.items := [] |}).
Proof.
  intros self ok. eexists.
  pose proof (sampler_bounded_queue self 7%Q 3%Q Normal ok 2%Q 2%Q 1 "ops" 3%Q None)
    as H.
  destruct H as (_ & Hadd & _ & Hdrain).
  - reflexivity.
  - apply Nat.le_0_l.
  - split; [exact Hadd|exact Hdrain].
Defined.

(** ** Executor *)

Lemma sampler_add_items (self : Sampler.t) tt pc st md lat ser ops ounit tp pcpl self' :
  Sampler.add self tt pc st md lat ser ops ounit tp pcpl = inr self' →
  Queue.items (Sampler.q self') = Queue.items (Sampler.q self) ∨
  ∃ sample,
    Queue.items (Sampler.q self') = Queue.items (Sampler.q self) ++ [sample] ∧
    latency_ms sample = lat ∧ service_time_ms sample = ser.
Proof.
  unfold Sampler.add, Queue.put_nowait.
  destruct (_ && _); intros [= <-]; [by left|].
  right. eexists. by repeat split.
Qed.

Lemma body_adds (total_start : Q) (self : Executor.t)
    (schedule' : Schedule) (tuple : ScheduleTuple) (turn : Turn) :
  elapses turn →
  queued (Executor.body total_start self schedule' tuple turn).1 = queued self ∨
  ∃ sample,
    queued (Executor.body total_start self schedule' tuple turn).1 =
      queued self ++ [sample] ∧
    timed (expected_scheduled_time tuple) sample.
Proof.
  intros (Hcheck & Hslept & Hstart & Hservice & Hadd).
  unfold queued, Executor.body.
  destruct (Executor.cancel self || cancel_set turn); [by left|].
  destruct (execute_single (outcome turn)) as [e|[[total_ops total_ops_unit] meta]];
    [by left|].
  destruct (Sampler.add _ _ _ _ _ _ _ _ _ _ _) as [e|sampler'] eqn:Hsampler; [by left|].
  apply sampler_add_items in Hsampler as [Hsame|(sample & Hitems & Hlat & Hser)];
    [by left|].
  right. exists sample. simpl. split; [done|].
  unfold timed. rewrite Hlat, Hser. unfold seconds_to_ms.
  destruct (Qlt_le_dec 0 (expected_scheduled_time tuple)) as [Hthrottled|Hfree].
  - split; [|split].
    + lra.
    + intros _. destruct (Qlt_le_dec 0 _) as [Hrest|Hrest]; lra.
    + intros Hle. lra.
  - split; [|split].
    + lra.
    + intros Hlt. lra.
    + done.
Qed.

Lemma turn_adds (total_start : Q) (self : Executor.t) (turn : Turn) :
  elapses turn →
  queued (Executor.turn total_start self turn).1 = queued self ∨
  ∃ tuple sample,
    (Executor.advance (Executor.schedule self) turn).1 = Yielded tuple ∧
    queued (Executor.turn total_start self turn).1 = queued self ++ [sample] ∧
    timed (expected_scheduled_time tuple) sample.
Proof.
  intros Helapses. unfold Executor.turn.
  destruct (Executor.advance _ _) as [[tuple| |e] schedule']; [|by left..].
  destruct (body_adds total_start self schedule' tuple turn Helapses)
    as [Hsame|(sample & Hitems & Htimed)]; [by left|].
  right. by exists tuple, sample.
Qed.

(** Every sample a run of the loop adds took at least no time, and is
    reported with a latency that is at least its service time. *)
Lemma loop_adds (total_start : Q) (turns : list Turn) :
  Forall elapses turns →
  ∀ self, ∃ new,
    queued (Executor.loop total_start self turns).1 = queued self ++ new ∧
    Forall (λ sample, (0 <= service_time_ms sample)%Q ∧
                      (service_time_ms sample <= latency_ms sample)%Q) new.
Proof.
  induction 1 as [|turn turns Helapses _ IH]; intros self.
  - exists []. by rewrite app_nil_r.
  - cbn [Executor.loop].
    assert (∃ new,
      queued (Executor.turn total_start self turn).1 = queued self ++ new ∧
      Forall (λ sample, (0 <= service_time_ms sample)%Q ∧
                        (service_time_ms sample <= latency_ms sample)%Q) new)
      as (new & Hnew & Hok).
    { destruct (turn_adds total_start self turn Helapses)
        as [Hsame|(tuple & sample & _ & Hitems & Hservice & Hthrottled & Hfree)].
      - exists []. by rewrite app_nil_r.
      - exists [sample]. split; [done|]. apply Forall_singleton. split; [done|].
        destruct (Qlt_le_dec 0 (expected_scheduled_time tuple)) as [Hlt|Hle].
        + by apply Hthrottled.
        + rewrite (Hfree Hle). apply Qle_refl. }
    destruct (Executor.turn total_start self turn) as [self' exit].
    simpl in Hnew.
    destruct exit; try (by exists new).
    destruct (IH self') as (new' & Hnew' & Hok').
    exists (new ++ new'). rewrite Hnew', Hnew, app_assoc. split; [done|].
    by apply Forall_app.
Qed.

(** C6: a turn of the executor's loop adds at most one sample to the
    sampler.  As time does not run backwards, the sample's [service_time_ms]
    is not negative; when the tuple's expected dispatch offset is greater
    than zero (the throughput is throttled) its [latency_ms] is at least its
    [service_time_ms]; when the offset is not greater than zero, in
    particular when it is zero, [latency_ms] equals [service_time_ms]. *)
Theorem executor_sample_times (total_start : Q) (self : Executor.t) (turn : Turn) :
  elapses turn →
  queued (Executor.turn total_start self turn).1 = queued self ∨
  ∃ tuple sample,
    (Executor.advance (Executor.schedule self) turn).1 = Yielded tuple ∧
    queued (Executor.turn total_start self turn).1 = queued self ++ [sample] ∧
    (0 <= service_time_ms sample)%Q ∧
    ((0 < expected_scheduled_time tuple)%Q →
     (service_time_ms sample <= latency_ms sample)%Q) ∧
    ((expected_scheduled_time tuple <= 0)%Q →
     latency_ms sample = service_time_ms sample).
Proof. apply turn_adds. Qed.

Lemma executor_sample_times_witness :
  queued (Executor.turn 0%Q example_executor example_turn).1 = queued example_executor ∨
  ∃ tuple sample,
    (Executor.advance (Executor.schedule example_executor) example_turn).1 = Yielded tuple ∧
    queued (Executor.turn 0%Q example_executor example_turn).1 =
      queued example_executor ++ [sample] ∧
    (0 <= service_time_ms sample)%Q ∧
    ((0 < expected_scheduled_time tuple)%Q →
     (service_time_ms sample <= latency_ms sample)%Q) ∧
    ((expected_scheduled_time tuple <= 0)%Q →
     latency_ms sample = service_time_ms sample).
Proof.
  apply (executor_sample_times 0%Q example_executor example_turn).
  unfold elapses, example_turn; simpl. repeat split; unfold Qle; simpl; lia.
Defined.

(** On the example turn, a tuple that is due half a second after the start
    of the task is dispatched after a sleep: the runner takes 100 ms, the
    latency, counted from the due time 0.5 s to the end of the request at
    0.8 s, is 300 ms. *)
Example executor_throttled_example :
  ∃ sample,
    queued (Executor.body 0%Q example_executor (Executor.schedule example_executor)
              {| expected_scheduled_time := 0.5%Q; sample_type := Normal;
                 percent_completed := Some 1%Q;
                 runner := {| runner_for := "index" |};
                 tuple_params := (params (partition (operation (example_task "search" 1 0 2 false)) 0 1)).1 |}
              example_turn).1 = [sample] ∧
    (service_time_ms sample == 100)%Q ∧ (latency_ms sample == 300)%Q.
Proof. eexists. split; [reflexivity|]. split; reflexivity. Qed.

(** ** Coordinator *)

Lemma schedule_next_drives (reported : gmap nat (Q * Q)) (start_next_task : Q)
    (drivers : list Driver.Address) :
  ∀ k,
    (∀ i, i < length drivers → is_Some (reported !! (k + i))) →
    ∃ drives,
      Driver.schedule_next reported start_next_task k drivers = (drives, None) ∧
      length drives = length drivers ∧
      ∀ i driver, drivers !! i = Some driver →
        ∃ client_ended_task_at master_received_msg_at,
          reported !! (k + i) = Some (client_ended_task_at, master_received_msg_at) ∧
          drives !! i =
            Some (Driver.drive_at driver
                    (client_ended_task_at + (start_next_task - master_received_msg_at))%Q).
Proof.
  induction drivers as [|driver drivers IH]; intros k Hall.
  - exists []. by repeat split.
  - cbn [Driver.schedule_next].
    destruct (Hall 0 ltac:(simpl; lia)) as [[ended received] Hk].
    rewrite Nat.add_0_r in Hk. rewrite Hk.
    destruct (IH (S k)) as (drives & Hnext & Hlen & Hdrives).
    { intros i Hi. rewrite Nat.add_succ_l, <- Nat.add_succ_r. apply Hall. simpl. lia. }
    rewrite Hnext. eexists. split; [done|]. split; [simpl; by rewrite Hlen|].
    intros [|i] d Hd; simpl in Hd.
    + injection Hd as <-. exists ended, received. by rewrite Nat.add_0_r.
    + destruct (Hdrives i d Hd) as (e' & r' & He & Hr).
      exists e', r'. by rewrite Nat.add_succ_r, <- Nat.add_succ_l.
Qed.

(** The report that completes a step which is not the final one: every load
    generator is driven from the entry the dictionary holds for it, and the
    coordinator is left at the start of the next step. *)
Lemma last_report_drives (self : Driver.t) (client_id : nat)
    (client_local_timestamp : Q) (task : JoinPoint) (received_at scheduled_at : Q) :
  Driver.currently_completed self + 1 = length (Driver.drivers self) →
  (Driver.current_step self + 1)%Z ≠ Driver.number_of_steps self →
  (∀ i, i < length (Driver.drivers self) → i ≠ client_id →
        is_Some (Driver.clients_completed_current_step self !! i)) →
  let waiting_period :=
    if test_mode_enabled (Driver.config self) then 0%Q else 5.0%Q in
  let start_next_task := (scheduled_at + waiting_period)%Q in
  let reported :=
    <[client_id := (client_local_timestamp, received_at)]>
      (Driver.clients_completed_current_step self) in
  ∃ self' drives,
    Driver.joinpoint_reached self client_id client_local_timestamp task
      received_at scheduled_at =
      (self', Driver.on_task_finished (Driver.raw_samples self) waiting_period :: drives, None) ∧
    start_of_step self' ∧
    Driver.current_step self' = (Driver.current_step self + 1)%Z ∧
    length drives = length (Driver.drivers self) ∧
    ∀ i driver, Driver.drivers self !! i = Some driver →
      ∃ client_ended_task_at master_received_msg_at,
        reported !! i = Some (client_ended_task_at, master_received_msg_at) ∧
        drives !! i =
          Some (Driver.drive_at driver
                  (client_ended_task_at + (start_next_task - master_received_msg_at))%Q).
Proof.
  intros Hlast Hnotfinal Hothers waiting_period start_next_task reported.
  unfold Driver.joinpoint_reached.
  rewrite Hlast, Nat.eqb_refl.
  unfold Driver.finished; cbn [Driver.current_step Driver.number_of_steps].
  rewrite bool_decide_eq_false_2 by done.
  cbn [Driver.config Driver.drivers].
  destruct (schedule_next_drives reported start_next_task (Driver.drivers self) 0)
    as (drives & Hnext & Hlen & Hdrives).
  { intros i Hi. simpl. subst reported.
    destruct (decide (i = client_id)) as [->|Hne].
    - rewrite lookup_insert_eq. eauto.
    - rewrite lookup_insert_ne by done. by apply Hothers. }
  fold waiting_period. fold start_next_task. fold reported.
  rewrite Hnext. eexists _, drives. split; [done|].
  split; [by split|]. split; [done|]. split; [done|].
  intros i driver Hi. by apply Hdrives.
Qed.

Lemma reports_cons (self : Driver.t) (r : Driver.Report) (rs : list Driver.Report) :
  Driver.reports self (r :: rs) =
    ((Driver.reports (Driver.report self r).1.1 rs).1,
     (Driver.report self r).1.2 :: (Driver.reports (Driver.report self r).1.1 rs).2).
Proof.
  cbn [Driver.reports].
  destruct (Driver.report self r) as [[self' actions] e]. cbn [fst snd].
  by destruct (Driver.reports self' rs).
Qed.

(** A report that does not complete the step enters the pair of the
    worker's timestamp and the master's reading under the worker's client
    id, and leaves the rest of the step's bookkeeping as it is. *)
Lemma report_records (self : Driver.t) (r : Driver.Report) :
  Driver.currently_completed self + 1 ≠ length (Driver.drivers self) →
  let self' := (Driver.report self r).1.1 in
  Driver.clients_completed_current_step self' =
    <[Driver.r_client_id r := entry r]> (Driver.clients_completed_current_step self) ∧
  Driver.currently_completed self' = Driver.currently_completed self + 1 ∧
  Driver.drivers self' = Driver.drivers self ∧
  Driver.config self' = Driver.config self ∧
  Driver.raw_samples self' = Driver.raw_samples self ∧
  Driver.current_step self' = Driver.current_step self ∧
  Driver.number_of_steps self' = Driver.number_of_steps self.
Proof.
  intros Hwait. unfold Driver.report, Driver.joinpoint_reached.
  apply Nat.eqb_neq in Hwait as ->.
  cbn [Driver.complete_current_task_sent Driver.clients_completed_current_step].
  destruct (preceding_task_completes_parent (Driver.r_task r)); [|done].
  destruct (Driver.complete_current_task_sent self); [done|].
  cbn [negb andb]. by destruct (foldl _ true _).
Qed.

(** The reports of a step before its last one. *)
Lemma reports_record (rs : list Driver.Report) :
  ∀ self,
    Driver.currently_completed self + length rs < length (Driver.drivers self) →
    let self' := (Driver.reports self rs).1 in
    Driver.clients_completed_current_step self' =
      recorded rs (Driver.clients_completed_current_step self) ∧
    Driver.currently_completed self' = Driver.currently_completed self + length rs ∧
    Driver.drivers self' = Driver.drivers self ∧
    Driver.config self' = Driver.config self ∧
    Driver.raw_samples self' = Driver.raw_samples self ∧
    Driver.current_step self' = Driver.current_step self ∧
    Driver.number_of_steps self' = Driver.number_of_steps self.
Proof.
  induction rs as [|r rs IH]; intros self Hstep.
  - simpl. by rewrite Nat.add_0_r.
  - rewrite reports_cons. cbn [fst]. simpl in Hstep.
    destruct (report_records self r) as (Hd & Hc & Hdr & Hcfg & Hraw & Hcur & Hnum); [lia|].
    destruct (IH (Driver.report self r).1.1) as (Hd' & Hc' & Hdr' & Hcfg' & Hraw' & Hcur' & Hnum').
    { rewrite Hc, Hdr. lia. }
    rewrite Hd', Hc', Hdr', Hcfg', Hraw', Hcur', Hnum', Hd, Hc, Hdr, Hcfg, Hraw, Hcur, Hnum.
    repeat split; try done. simpl. lia.
Qed.

Lemma recorded_other (rs : list Driver.Report) :
  ∀ reported i,
    i ∉ Driver.r_client_id <$> rs →
    recorded rs reported !! i = reported !! i.
Proof.
  induction rs as [|r rs IH]; intros reported i Hi; [done|].
  rewrite fmap_cons, not_elem_of_cons in Hi. destruct Hi as [Hne Hi].
  change (recorded (r :: rs) reported)
    with (recorded rs (<[Driver.r_client_id r := entry r]> reported)).
  rewrite IH by done. by rewrite lookup_insert_ne.
Qed.

(** Where every client reports once, the entry of a client is the one its
    report left. *)
Lemma recorded_lookup (rs : list Driver.Report) :
  ∀ reported r,
    NoDup (Driver.r_client_id <$> rs) →
    r ∈ rs →
    recorded rs reported !! Driver.r_client_id r = Some (entry r).
Proof.
  induction rs as [|r0 rs IH]; intros reported r Hnodup Hr.
  - by apply elem_of_nil in Hr.
  - rewrite fmap_cons in Hnodup. apply NoDup_cons in Hnodup as [Hfresh Hnodup].
    change (recorded (r0 :: rs) reported)
      with (recorded rs (<[Driver.r_client_id r0 := entry r0]> reported)).
    apply elem_of_cons in Hr as [->|Hr].
    + rewrite recorded_other by done. by rewrite lookup_insert_eq.
    + by apply IH.
Qed.

Lemma recorded_snoc (rs : list Driver.Report) (r : Driver.Report)
    (reported : gmap nat (Q * Q)) :
  recorded (rs ++ [r]) reported =
    <[Driver.r_client_id r := entry r]> (recorded rs reported).
Proof. unfold recorded. by rewrite foldl_app. Qed.

(** C4: from the start of a step that is not the final one, let each of the
    N workers report the join point once, [r] being the last report.  The
    coordinator then announces the end of the task with the waiting period
    (0 in test mode, 5.0 seconds otherwise), computes [start_next_task] as
    its clock reading plus the waiting period, and tells every worker [i] to
    drive at the local timestamp which the report of worker [i] carried plus
    ([start_next_task] minus the master's clock reading taken when that
    report was received); no exception is raised and the coordinator is at
    the start of the next step. *)
Theorem joinpoint_reached_schedules_next (self : Driver.t)
    (rs : list Driver.Report) (r : Driver.Report) :
  start_of_step self →
  (Driver.current_step self + 1)%Z ≠ Driver.number_of_steps self →
  Driver.r_client_id <$> rs ++ [r] ≡ₚ seq 0 (length (Driver.drivers self)) →
  let waiting_period :=
    if test_mode_enabled (Driver.config self) then 0%Q else 5.0%Q in
  let start_next_task := (Driver.r_scheduled_at r + waiting_period)%Q in
  ∃ self' drives,
    Driver.report (Driver.reports self rs).1 r =
      (self', Driver.on_task_finished (Driver.raw_samples self) waiting_period :: drives, None) ∧
    start_of_step self' ∧
    Driver.current_step self' = (Driver.current_step self + 1)%Z ∧
    length drives = length (Driver.drivers self) ∧
    ∀ i driver report_i,
      Driver.drivers self !! i = Some driver →
      report_i ∈ rs ++ [r] →
      Driver.r_client_id report_i = i →
      drives !! i =
        Some (Driver.drive_at driver
                (Driver.r_client_local_timestamp report_i +
                 (start_next_task - Driver.r_received_at report_i))%Q).
Proof.
  intros [Hzero Hempty] Hnotfinal Hperm waiting_period start_next_task.
  assert (length rs + 1 = length (Driver.drivers self)) as Hlen.
  { apply Permutation_length in Hperm.
    by rewrite length_fmap, length_app, length_seq in Hperm. }
  assert (NoDup (Driver.r_client_id <$> rs ++ [r])) as Hnodup.
  { rewrite Hperm. apply NoDup_seq. }
  destruct (reports_record rs self)
    as (Hd & Hc & Hdr & Hcfg & Hraw & Hcur & Hnum); [lia|].
  set (before := (Driver.reports self rs).1) in *.
  assert (∀ report_i, report_i ∈ rs ++ [r] →
            <[Driver.r_client_id r := entry r]>
              (Driver.clients_completed_current_step before)
              !! Driver.r_client_id report_i = Some (entry report_i)) as Hentry.
  { intros report_i Hin. rewrite Hd, <- recorded_snoc. by apply recorded_lookup. }
  destruct (last_report_drives before (Driver.r_client_id r)
              (Driver.r_client_local_timestamp r) (Driver.r_task r)
              (Driver.r_received_at r) (Driver.r_scheduled_at r))
    as (self' & drives & Hrun & Hstart & Hstep & Hdrives & Hdrive).
  { rewrite Hc, Hdr. lia. }
  { by rewrite Hcur, Hnum. }
  { intros i Hi Hne. rewrite Hdr in Hi.
    assert (i ∈ Driver.r_client_id <$> rs ++ [r]) as Hin.
    { rewrite Hperm. apply elem_of_seq. lia. }
    apply list_elem_of_fmap in Hin as (report_i & -> & Hin).
    specialize (Hentry report_i Hin).
    rewrite lookup_insert_ne in Hentry by done. by rewrite Hentry. }
  rewrite Hcfg, Hraw in Hrun. rewrite Hcfg, Hdr in Hdrive.
  exists self', drives. split; [exact Hrun|].
  split; [done|]. split; [by rewrite Hstep, Hcur|]. split; [by rewrite Hdrives, Hdr|].
  intros i driver report_i Hdriver Hin Hid.
  destruct (Hdrive i driver Hdriver) as (ended & received & Hlookup & Hdrives_i).
  fold (entry r) in Hlookup.
  rewrite <- Hid, (Hentry report_i Hin) in Hlookup.
  injection Hlookup as <- <-. exact Hdrives_i.
Qed.

Lemma joinpoint_reached_schedules_next_witness :
  ∃ self' drives,
    Driver.report (Driver.reports example_driver_start [example_first_report]).1
      example_last_report =
      (self', Driver.on_task_finished [] 5.0%Q :: drives, None) ∧
    start_of_step self' ∧
    Driver.current_step self' = 1%Z ∧
    length drives = 2 ∧
    ∀ i driver report_i,
      Driver.drivers example_driver_start !! i = Some driver →
      report_i ∈ [example_first_report; example_last_report] →
      Driver.r_client_id report_i = i →
      drives !! i =
        Some (Driver.drive_at driver
                (Driver.r_client_local_timestamp report_i +
                 (13 + 5.0 - Driver.r_received_at report_i))%Q).
Proof.
  apply (joinpoint_reached_schedules_next example_driver_start
           [example_first_report] example_last_report).
  - split; reflexivity.
  - simpl. lia.
  - simpl. apply Permutation_swap.
Defined.

(** On the example, client 1 reports at its local time 4, received at the
    master's time 10, and client 0 at its local time 7, received at 12; the
    next task starts at the master's time 13 + 5, so client 0 is driven at
    its local time 7 + (18 - 12) = 13 and client 1 at 4 + (18 - 10) = 12. *)
Example last_report_drives_example :
  (Driver.report (Driver.reports example_driver_start [example_first_report]).1
     example_last_report).1.2 =
    [Driver.on_task_finished [] 5.0%Q;
     Driver.drive_at 10 (7 + (13 + 5.0 - 12))%Q;
     Driver.drive_at 11 (4 + (13 + 5.0 - 10))%Q].
Proof. reflexivity. Qed.

Lemma schedule_next_no_complete reported start_next_task drivers k :
  sends_complete (Driver.schedule_next reported start_next_task k drivers).1 = false.
Proof.
  revert k. induction drivers as [|driver drivers IH]; intros k; [done|].
  cbn [Driver.schedule_next].
  destruct (reported !! k) as [[ended received]|]; [|done].
  specialize (IH (S k)).
  destruct (Driver.schedule_next reported start_next_task (S k) drivers) as [drives e].
  done.
Qed.

(** A report that completes the step: the flag is reset, nothing is sent to
    complete a task. *)
Lemma report_last (self : Driver.t) (r : Driver.Report) :
  Driver.currently_completed self + 1 = length (Driver.drivers self) →
  Driver.complete_current_task_sent (Driver.report self r).1.1 = false ∧
  Driver.currently_completed (Driver.report self r).1.1 = 0 ∧
  sends_complete (Driver.report self r).1.2 = false.
Proof.
  intros Hlast. unfold Driver.report, Driver.joinpoint_reached.
  rewrite Hlast, Nat.eqb_refl.
  destruct (Driver.finished _); [done|].
  pose proof (schedule_next_no_complete
                (<[Driver.r_client_id r :=
                     (Driver.r_client_local_timestamp r, Driver.r_received_at r)]>
                   (Driver.clients_completed_current_step self))
                (Driver.r_scheduled_at r +
                 (if test_mode_enabled (Driver.config self) then 0 else 5.0))%Q
                (Driver.drivers self) 0) as Hnone.
  cbn [Driver.config Driver.drivers].
  destruct (Driver.schedule_next _ _ _ _) as [drives e]. done.
Qed.

Lemma all_clients_finished_spec (reported : gmap nat (Q * Q)) (cs : list nat) (b : bool) :
  foldl (λ all_clients_finished client_id,
           if bool_decide (client_id ∈ dom reported)
           then all_clients_finished else false) b cs = true ↔
  b = true ∧ ∀ c, c ∈ cs → c ∈ dom reported.
Proof.
  revert b. induction cs as [|c cs IH]; intros b; simpl.
  - split; [intros ->; split; [done|]; intros c Hc; by apply elem_of_nil in Hc|by intros [-> _]].
  - rewrite IH. case_bool_decide as Hc.
    + split.
      * intros [-> Hall]. split; [done|]. intros c' [->|Hc']%elem_of_cons; auto.
      * intros [-> Hall]. split; [done|]. intros c' Hc'. apply Hall. by right.
    + split; [by intros [[=] _]|].
      intros [_ Hall]. exfalso. apply Hc, Hall. by left.
Qed.

(** A report that does not complete the step. *)
Lemma report_waiting (self : Driver.t) (r : Driver.Report) :
  Driver.currently_completed self + 1 ≠ length (Driver.drivers self) →
  let self' := (Driver.report self r).1.1 in
  let actions := (Driver.report self r).1.2 in
  Driver.currently_completed self' = Driver.currently_completed self + 1 ∧
  Driver.drivers self' = Driver.drivers self ∧
  (sends_complete actions = false ∧
   Driver.complete_current_task_sent self' = Driver.complete_current_task_sent self ∨
   actions = Driver.complete_current_task <$> Driver.drivers self ∧
   clients_executing_completing_task (Driver.r_task r) ≠ [] ∧
   (∀ c, c ∈ clients_executing_completing_task (Driver.r_task r) →
         c ∈ dom (Driver.clients_completed_current_step self')) ∧
   Driver.complete_current_task_sent self = false ∧
   Driver.complete_current_task_sent self' = true).
Proof.
  intros Hwait. unfold Driver.report, Driver.joinpoint_reached.
  apply Nat.eqb_neq in Hwait as ->.
  cbn [Driver.complete_current_task_sent Driver.clients_completed_current_step].
  destruct (preceding_task_completes_parent (Driver.r_task r)) eqn:Hcompletes;
    [|simpl; by auto].
  destruct (Driver.complete_current_task_sent self) eqn:Hsent; [simpl; by auto|].
  cbn [negb andb].
  destruct (foldl _ true _) eqn:Hall; [|simpl; by auto].
  apply all_clients_finished_spec in Hall as [_ Hall].
  simpl. split; [done|]. split; [done|]. right.
  split; [done|]. split; [|by auto].
  unfold preceding_task_completes_parent, num_clients_executing_completing_task in Hcompletes.
  apply Nat.ltb_lt in Hcompletes. intros Hnil. rewrite Hnil in Hcompletes. simpl in *. lia.
Qed.

(** Once [CompleteCurrentTask] has been sent, the rest of the step sends
    none. *)
Lemma reports_sent (rs : list Driver.Report) :
  ∀ self,
    Driver.complete_current_task_sent self = true →
    Driver.currently_completed self + length rs ≤ length (Driver.drivers self) →
    filter (λ actions, sends_complete actions = true) (Driver.reports self rs).2 = [].
Proof.
  induction rs as [|r rs IH]; intros self Hsent Hstep; [done|].
  rewrite reports_cons. cbn [snd]. simpl in Hstep.
  destruct (decide (Driver.currently_completed self + 1 = length (Driver.drivers self)))
    as [Hlast|Hwait].
  - destruct rs; [|simpl in Hstep; lia].
    destruct (report_last self r Hlast) as (_ & _ & Hnone).
    simpl. rewrite filter_cons_False; [done|]. by rewrite Hnone.
  - destruct (report_waiting self r Hwait)
      as (Hcount & Hdrivers & [[Hnone Hflag]|(_ & _ & _ & Hunsent & _)]);
      [|congruence].
    rewrite filter_cons_False by (by rewrite Hnone).
    apply IH; [congruence|]. rewrite Hcount, Hdrivers. lia.
Qed.

Lemma reports_once (rs : list Driver.Report) :
  ∀ self,
    Driver.currently_completed self + length rs ≤ length (Driver.drivers self) →
    length (filter (λ actions, sends_complete actions = true) (Driver.reports self rs).2) ≤ 1.
Proof.
  induction rs as [|r rs IH]; intros self Hstep; [simpl; lia|].
  rewrite reports_cons. cbn [snd]. simpl in Hstep.
  destruct (decide (Driver.currently_completed self + 1 = length (Driver.drivers self)))
    as [Hlast|Hwait].
  - destruct rs; [|simpl in Hstep; lia].
    destruct (report_last self r Hlast) as (_ & _ & Hnone).
    simpl. rewrite filter_cons_False; [simpl; lia|]. by rewrite Hnone.
  - destruct (report_waiting self r Hwait)
      as (Hcount & Hdrivers & [[Hnone Hflag]|(Hall & _ & _ & _ & Hsent)]).
    + rewrite filter_cons_False by (by rewrite Hnone).
      apply IH. rewrite Hcount, Hdrivers. lia.
    + assert (filter (λ actions, sends_complete actions = true)
                (Driver.reports (Driver.report self r).1.1 rs).2 = []) as Hrest.
      { apply reports_sent; [done|]. rewrite Hcount, Hdrivers. lia. }
      destruct (decide (sends_complete (Driver.report self r).1.2 = true)).
      * rewrite filter_cons_True, Hrest by done. simpl. lia.
      * rewrite filter_cons_False, Hrest by done. simpl. lia.
Qed.

(** C5: (1) a report makes the coordinator send [CompleteCurrentTask] only
    when, this report included, fewer than N workers have reported the join
    point, the join point's list of completing clients is not empty, every
    client of that list has reported, and [complete_current_task_sent] is
    false; the message then goes to every worker and the flag is set.
    (2) The report that completes the step resets the flag.  (3) Among the
    reports of one step at most one makes the coordinator send
    [CompleteCurrentTask]. *)
Theorem complete_current_task_once :
  (∀ self r,
     Driver.currently_completed self < length (Driver.drivers self) →
     sends_complete (Driver.report self r).1.2 = true →
     Driver.currently_completed (Driver.report self r).1.1 < length (Driver.drivers self) ∧
     clients_executing_completing_task (Driver.r_task r) ≠ [] ∧
     (∀ c, c ∈ clients_executing_completing_task (Driver.r_task r) →
           c ∈ dom (Driver.clients_completed_current_step (Driver.report self r).1.1)) ∧
     Driver.complete_current_task_sent self = false ∧
     Driver.complete_current_task_sent (Driver.report self r).1.1 = true ∧
     (Driver.report self r).1.2 = Driver.complete_current_task <$> Driver.drivers self) ∧
  (∀ self r,
     Driver.currently_completed self + 1 = length (Driver.drivers self) →
     Driver.complete_current_task_sent (Driver.report self r).1.1 = false) ∧
  (∀ self rs,
     Driver.currently_completed self + length rs ≤ length (Driver.drivers self) →
     length (filter (λ actions, sends_complete actions = true)
                    (Driver.reports self rs).2) ≤ 1).
Proof.
  split; [|split].
  - intros self r Hfewer Hsends.
    destruct (decide (Driver.currently_completed self + 1 = length (Driver.drivers self)))
      as [Hlast|Hwait].
    + destruct (report_last self r Hlast) as (_ & _ & Hnone). congruence.
    + destruct (report_waiting self r Hwait)
        as (Hcount & Hdrivers & [[Hnone _]|(Hall & Hset & Hreported & Hunsent & Hsent)]);
        [congruence|].
      repeat split; try done. rewrite Hcount. lia.
  - intros self r Hlast. by destruct (report_last self r Hlast) as (? & _).
  - intros self rs. apply reports_once.
Qed.

Lemma complete_current_task_once_witness :
  (sends_complete (Driver.report example_driver_start (example_report 0)).1.2 = true →
   Driver.complete_current_task_sent example_driver_start = false ∧
   (Driver.report example_driver_start (example_report 0)).1.2 =
     [Driver.complete_current_task 10; Driver.complete_current_task 11]) ∧
  Driver.complete_current_task_sent (Driver.report example_driver (example_report 1)).1.1 =
    false ∧
  length (filter (λ actions, sends_complete actions = true)
            (Driver.reports example_driver_start [example_report 0; example_report 1]).2) ≤ 1.
Proof.
  destruct complete_current_task_once as (Honly & Hreset & Honce).
  split; [|split].
  - intros Hsends.
    destruct (Honly example_driver_start (example_report 0)) as
      (_ & _ & _ & Hunsent & _ & Hall); [simpl; lia|done|].
    split; [exact Hunsent|exact Hall].
  - apply Hreset. reflexivity.
  - apply Honce. simpl. lia.
Defined.

(** On the example, the report of client 0 does make the coordinator send
    [CompleteCurrentTask], and the report of client 1 ends the step. *)
Example complete_current_task_sent_example :
  sends_complete (Driver.report example_driver_start (example_report 0)).1.2 = true ∧
  sends_complete
    (Driver.report (Driver.report example_driver_start (example_report 0)).1.1
       (example_report 1)).1.2 = false.
Proof. split; vm_compute; reflexivity. Qed.

(** ** Load generator *)

(** Arriving at a join point clears the [complete] flag. *)
Lemma drive_joinpoint_clears (self : LoadGenerator.t) (env : LoadGenerator.Env)
    (self' : LoadGenerator.t) (actions : list LoadGenerator.Action) :
  LoadGenerator.drive self env = (self', actions, None) →
  LoadGenerator.at_joinpoint self' = true →
  LoadGenerator.complete self' = false.
Proof.
  unfold LoadGenerator.drive.
  destruct (LoadGenerator.skip_none _ _) as [[[t|j|]|] index]; try done.
  - cbn [LoadGenerator.complete].
    destruct (LoadGenerator.complete self) eqn:Hcomplete.
    + by intros [= <- _].
    + destruct (schedule_for t _); [done|]. by intros [= <- _].
  - cbn [LoadGenerator.executor_future].
    destruct (LoadGenerator.executor_future self) as [[|[e|]]|];
      try destruct (LoadGenerator.awaited env); try done;
      destruct (LoadGenerator.send_samples _) as [[self1 sent] samples];
      by intros [= <- _].
Qed.

(** [skip_none] is the loop over [current_task_and_advance]. *)
Lemma skip_none_advance (self : LoadGenerator.t) :
  let index := LoadGenerator.current_task_index self in
  let rest := drop index (LoadGenerator.tasks self) in
  match LoadGenerator.current_task_and_advance self with
  | inl e => e = IndexError ∧ LoadGenerator.skip_none rest index = (None, index)
  | inr (NoneCell, self') =>
      LoadGenerator.current_task_index self' = S index ∧
      LoadGenerator.skip_none rest index =
        LoadGenerator.skip_none (drop (S index) (LoadGenerator.tasks self)) (S index)
  | inr (task, self') =>
      LoadGenerator.current_task_index self' = S index ∧
      LoadGenerator.skip_none rest index = (Some task, S index)
  end.
Proof.
  simpl. unfold LoadGenerator.current_task_and_advance.
  destruct (LoadGenerator.tasks self !! LoadGenerator.current_task_index self)
    as [task|] eqn:Hlookup.
  - rewrite (drop_S _ _ _ Hlookup). by destruct task.
  - apply lookup_ge_None in Hlookup. by rewrite drop_ge.
Qed.

(** With the [complete] flag set, [drive] skips a task: nothing is handed to
    the executor and no wakeup is asked for. *)
Lemma drive_skips_when_complete (self : LoadGenerator.t) (env : LoadGenerator.Env)
    (task : Task) (index : nat) :
  LoadGenerator.complete self = true →
  LoadGenerator.skip_none
    (drop (LoadGenerator.current_task_index self) (LoadGenerator.tasks self))
    (LoadGenerator.current_task_index self) = (Some (TaskCell task), index) →
  (LoadGenerator.drive self env).1.2 = [] ∧
  LoadGenerator.executor_future (LoadGenerator.drive self env).1.1 =
    LoadGenerator.executor_future self.
Proof.
  intros Hcomplete Hskip. unfold LoadGenerator.drive. rewrite Hskip.
  cbn [LoadGenerator.complete]. by rewrite Hcomplete.
Qed.

(** C10: a load generator that receives [CompleteCurrentTask] while its
    current entry is a join point ignores the message: its state, the
    [complete] flag included, stays as it is and nothing is sent.  The flag
    is unset at a join point, as arriving there cleared it; so when the
    coordinator then tells the load generator to drive on, the task behind
    the join point is handed to the executor and not skipped. *)
Theorem complete_current_task_ignored_at_joinpoint :
  (∀ self env,
     LoadGenerator.at_joinpoint self = true →
     LoadGenerator.receiveMessage self CompleteCurrentTask env = (self, [])) ∧
  (∀ self env self' actions,
     LoadGenerator.drive self env = (self', actions, None) →
     LoadGenerator.at_joinpoint self' = true →
     LoadGenerator.complete self' = false) ∧
  (∀ self env1 client_start_timestamp env2 env3 task index schedule,
     LoadGenerator.at_joinpoint self = true →
     LoadGenerator.complete self = false →
     LoadGenerator.skip_none
       (drop (LoadGenerator.current_task_index self) (LoadGenerator.tasks self))
       (LoadGenerator.current_task_index self) = (Some (TaskCell task), index) →
     schedule_for task (LoadGenerator.client_id self) = inr schedule →
     ∃ self',
       receive_all self
         [(CompleteCurrentTask, env1); (Drive client_start_timestamp, env2);
          (WakeupMessage, env3)] =
         (self',
          [[];
           [LoadGenerator.WakeupAfter
              (client_start_timestamp - LoadGenerator.perf_counter env2)%Q];
           [LoadGenerator.Submit
              {| Executor.task := task; Executor.schedule := schedule;
                 Executor.sampler :=
                   Sampler.init (LoadGenerator.client_id self) task
                     (LoadGenerator.perf_counter env3);
                 Executor.cancel := LoadGenerator.cancel self;
                 Executor.complete := false;
                 Executor.clock := LoadGenerator.perf_counter env3 |}
              (profiling (LoadGenerator.config self));
            LoadGenerator.WakeupAfter (LoadGenerator.wakeup_interval self)]]) ∧
       LoadGenerator.current_task self' = Some (TaskCell task) ∧
       LoadGenerator.executor_future self' = Some LoadGenerator.Running ∧
       LoadGenerator.complete self' = false).
Proof.
  split; [|split].
  - intros self env Hat. unfold LoadGenerator.receiveMessage, LoadGenerator.handle.
    by rewrite Hat.
  - apply drive_joinpoint_clears.
  - intros self env1 ts env2 env3 task index schedule Hat Hcomplete Hskip Hschedule.
    cbn [receive_all].
    unfold LoadGenerator.receiveMessage at 1. unfold LoadGenerator.handle at 1.
    rewrite Hat.
    unfold LoadGenerator.receiveMessage at 1. unfold LoadGenerator.handle at 1.
    unfold LoadGenerator.receiveMessage at 1. unfold LoadGenerator.handle at 1.
    cbn [LoadGenerator.start_driving].
    unfold LoadGenerator.drive.
    cbn [LoadGenerator.current_task_index LoadGenerator.tasks LoadGenerator.config
         LoadGenerator.complete LoadGenerator.client_id].
    rewrite Hskip. cbn [LoadGenerator.complete]. rewrite Hcomplete.
    cbn [LoadGenerator.client_id]. rewrite Hschedule.
    eexists. split; [reflexivity|]. done.
Qed.

Lemma complete_current_task_ignored_at_joinpoint_witness :
  LoadGenerator.receiveMessage example_worker CompleteCurrentTask (example_env 20%Q) =
    (example_worker, []) ∧
  ∃ self' actions,
    receive_all example_worker
      [(CompleteCurrentTask, example_env 20%Q); (Drive 25%Q, example_env 21%Q);
       (WakeupMessage, example_env 25%Q)] =
      (self', [[]; [LoadGenerator.WakeupAfter (25 - 21)%Q]; actions]) ∧
    LoadGenerator.current_task self' = Some (TaskCell (example_task "search" 1 0 2 false)) ∧
    LoadGenerator.executor_future self' = Some LoadGenerator.Running.
Proof.
  destruct complete_current_task_ignored_at_joinpoint as (Hignored & _ & Hnext).
  split.
  - apply Hignored. reflexivity.
  - destruct (Hnext example_worker (example_env 20%Q) 25%Q (example_env 21%Q)
                (example_env 25%Q) (example_task "search" 1 0 2 false) 4
                (IterationCountBased
                   (iteration_count_based (sched (example_task "search" 1 0 2 false))
                      0 2 {| runner_for := "index" |}
                      (partition (operation (example_task "search" 1 0 2 false)) 0 1))))
      as (self' & Hrun & Htask & Hfuture & _); try reflexivity.
    exists self'. eexists. split; [exact Hrun|]. split; [exact Htask|exact Hfuture].
Defined.

(** * Further properties *)

(** ** Allocator: join points, width, completing clients *)



















(** ** Sampler: order and overflow *)



(** ** Executor: flags and runner errors *)












(** ** Coordinator: end of a step *)












(** ** Load generator: moving along the row *)


Lemma skip_none_missing (rest : list Cell) :
  ∀ index index',
    LoadGenerator.skip_none rest index = (None, index') →
    index' = index + length rest ∧ Forall (λ c, c = NoneCell) rest.
Proof.
  induction rest as [|c rest IH]; intros index index' Hskip.
  - injection Hskip as <-. split; [simpl; lia|constructor].
  - destruct c; try done. simpl in Hskip.
    destruct (IH _ _ Hskip) as [-> Hall]. split; [simpl; lia|by constructor].
Qed.








(** ** Meta data *)



(** ** Actors *)












(** ** Time-period schedules *)














(** ** Global throughput *)


























(** Grouping by task. *)






